(** * VectorTileGenerator: slippy-map tile pyramids

    A shallow embedding of the two [GenerateTiles] classes of the repository
    ([TileGenerator/generator.py], the sequential engine, and
    [VectorTileGenerator/generator.py], the joblib engine) together with the
    properties their specification states.

    Modelling conventions.
    - Python [int] is [Z].  A tile [[z, x, y]] is a Python list, here [list Z].
    - The numbers a caller passes as [bounds] (ints or finite floats) are exact
      rationals, [Q]; Python compares them by value, as [Qle_bool] and
      [Qeq_bool] do.
    - The floats computed by the projection code are idealised as real
      numbers: [math.pi] is [PI], [math.pow(2, z)] is [powerRZ 2 z],
      [math.atan] and [math.exp] are [atan] and [exp].  Rounding, overflow and
      underflow are not part of this model: it stands for the code on the
      zoom levels [-1074 .. 1023], where [math.pow(2, z)] is a positive
      finite float, and the zoom levels of a configuration are [1 .. 20].
    - Module [Double] holds the same projection code over IEEE 754 binary64,
      the arithmetic Python runs it in, with [math.atan] and [math.exp] as
      parameters; it shows where rounding departs from the exact model.
    - [raise] is the [Raise] outcome of the [result] monad; list indexing
      out of range raises [IndexError].
    - [turfpy.transformation.intersect] is external: every function that
      reaches it takes it as the parameter [intersect], the truth value of
      what the library returns on the two polygon features.
    - [joblib.Parallel] is external: its pool is modelled by one result slot
      per task and an arbitrary order in which the tasks complete. *)

From Stdlib Require Import ZArith QArith Qpower Reals Floats String List Bool.
From Stdlib Require Import Lia Lra Permutation.
From Stdlib Require Uint63.
Import ListNotations.

Local Open Scope Z_scope.

(** ** Exceptions and the error monad *)

Inductive exn : Type :=
| ValueError (msg : string)
| TypeError
| IndexError.

Inductive result (A : Type) : Type :=
| Ok (a : A)
| Raise (e : exn).

Arguments Ok {A} a.
Arguments Raise {A} e.

Definition bind {A B : Type} (m : result A) (k : A -> result B) : result B :=
  match m with
  | Ok a => k a
  | Raise e => Raise e
  end.

Notation "x <- m ;; k" := (bind m (fun x => k))
  (at level 61, m at next level, right associativity).

(** A [for] loop whose body may raise: the state is threaded through the
    items, the first exception ends the loop. *)
Fixpoint for_each {S A : Type} (body : S -> A -> result S) (items : list A) (s : S)
  : result S :=
  match items with
  | [] => Ok s
  | a :: rest => s' <- body s a ;; for_each body rest s'
  end.

(** ** Python built-ins *)

(** [l[i]] for a non-negative literal index. *)
Definition item {A : Type} (l : list A) (i : nat) : result A :=
  match nth_error l i with
  | Some v => Ok v
  | None => Raise IndexError
  end.

(** [range(start, stop)]. *)
Definition range (start stop : Z) : list Z :=
  map (fun i => start + Z.of_nat i) (seq 0 (Z.to_nat (stop - start))).

(** [a == b] on lists of numbers: same length, items equal by value. *)
Fixpoint list_eq (a b : list Q) : bool :=
  match a, b with
  | [], [] => true
  | x :: a', y :: b' => Qeq_bool x y && list_eq a' b'
  | _, _ => false
  end.

(** [a < b] on numbers. *)
Definition Qlt_bool (a b : Q) : bool := negb (Qle_bool b a).

(** A [dict] with integer keys keeps its items in insertion order;
    [d[k] = v] replaces the value of an existing key in place and appends a
    new key. *)
Definition dict (V : Type) : Type := list (Z * V).

Fixpoint dict_set {V : Type} (d : dict V) (k : Z) (v : V) : dict V :=
  match d with
  | [] => [(k, v)]
  | (k', v') :: d' =>
      if k' =? k then (k', v) :: d' else (k', v') :: dict_set d' k v
  end.

Fixpoint dict_get {V : Type} (d : dict V) (k : Z) : option V :=
  match d with
  | [] => None
  | (k', v') :: d' => if k' =? k then Some v' else dict_get d' k
  end.

Definition keys {V : Type} (d : dict V) : list Z := map fst d.

(** ** The class and its constructor *)

Record GenerateTiles : Type := {
  minZoom : Z;
  maxZoom : Z;
  bounds : list Q
}.

Definition __init__ (minZoom maxZoom : Z) (bounds : list Q) : result GenerateTiles :=
  if minZoom >? 20 then
    Raise (ValueError "minZoom must be less than or equal to 20")
  else if minZoom <? 1 then
    Raise (ValueError "minZoom must be greater than or equal to 1")
  else if maxZoom <? 1 then
    Raise (ValueError "maxZoom must be greater than or equal to 1")
  else if maxZoom >? 20 then
    Raise (ValueError "maxZoom must be greater than or equal to 20")
  else if minZoom >? maxZoom then
    Raise (ValueError "minZoom must be less than or equal to maxZoom")
  else if maxZoom <? minZoom then
    Raise (ValueError "maxZoom must be greater than or equal to minZoom")
  else if negb (Nat.eqb (length bounds) 4) then
    Raise (ValueError "Incorrect length for bounds. Ex.[-180, -90, 180, 90]")
  else
    b0 <- item bounds 0 ;;
    if Qlt_bool b0 (-180) then
      Raise (ValueError "Minimum x bounds must be greater than or equal to -180")
    else
    b1 <- item bounds 1 ;;
    if Qlt_bool b1 (-90) then
      Raise (ValueError "Minimum y bounds must be greater than or equal to -90")
    else
    b2 <- item bounds 2 ;;
    if Qlt_bool 180 b2 then
      Raise (ValueError "Maximum x bounds must be less than or equal to 180")
    else
    b3 <- item bounds 3 ;;
    if Qlt_bool 90 b3 then
      Raise (ValueError "Maximum y bounds must be less than or equal to 90")
    else if Qlt_bool b2 b0 then
      Raise (ValueError "Minimum x bounds must be less than maximum x bounds")
    else if Qlt_bool b3 b1 then
      Raise (ValueError "Minimum y bounds must be less than maximum y bounds")
    else
      Ok {| minZoom := minZoom; maxZoom := maxZoom; bounds := bounds |}.

(** ** Projection math *)

Local Open Scope R_scope.

(** The model is for the zoom levels [-1074 <= z <= 1023] and pixel numbers
    below [2^1024] in absolute value.  Outside, the source raises:
    [math.pow(2, z)] overflows from [z = 1024] on, an [int] operand that
    large does not convert to a float ([OverflowError]), and below [-1074]
    [math.pow(2, z)] is [0.0] and the division raises [ZeroDivisionError]. *)
Definition pixels_to_meters (z x y : Z) : list R :=
  let res := (2 * PI * 6378137 / 256) / powerRZ 2 z in
  let mx := IZR x * res - (2 * PI * 6378137 / 2) in
  let my := IZR y * res - (2 * PI * 6378137 / 2) in
  let my := - my in
  [mx; my].

Definition meters_to_lat_lng (coord : list R) : result (list R) :=
  c0 <- item coord 0 ;;
  let lng := (c0 / (2 * PI * 6378137 / 2)) * 180 in
  c1 <- item coord 1 ;;
  let lat := (c1 / (2 * PI * 6378137 / 2)) * 180 in
  let lat := 180 / PI * (2 * atan (exp (lat * PI / 180)) - PI / 2) in
  Ok [lng; lat].

Local Close Scope R_scope.

(** ** Tile geometry *)

(** [size = 2 ** z] is an int for [z >= 0] and the float [2^z] below; either
    way it is the rational [2 ^ z], and [x >= size] compares by value.  (The
    float is exact down to [z = -1074]; below, it is [0.0] in the source,
    which is outside the model.) *)
Definition tile_is_valid (z x y : Z) : bool :=
  let size := Qpower 2 z in
  if Qle_bool size (inject_Z x) then false
  else if Qle_bool size (inject_Z y) then false
  else if (x <? 0) || (y <? 0) then false
  else true.

Definition tile_bounds (z x y : Z) : result (list (list R)) :=
  if tile_is_valid z x y then
    let mins := pixels_to_meters z (x * 256) ((y + 1) * 256) in
    let maxs := pixels_to_meters z ((x + 1) * 256) (y * 256) in
    Ok [mins; maxs]
  else Raise (ValueError "Invalid tile").

Definition bounds_from_tile (z x y : Z) : result (list R) :=
  bounds <- tile_bounds z x y ;;
  b0 <- item bounds 0 ;;
  mins <- meters_to_lat_lng b0 ;;
  b1 <- item bounds 1 ;;
  maxs <- meters_to_lat_lng b1 ;;
  mins0 <- item mins 0 ;;
  mins1 <- item mins 1 ;;
  maxs0 <- item maxs 0 ;;
  maxs1 <- item maxs 1 ;;
  Ok [mins0; mins1; maxs0; maxs1].

(** ** The projection code in binary64 *)

Module Double.

Local Open Scope float_scope.

(** [math.pi], the double nearest to pi. *)
Definition pi : float := 0x1.921fb54442d18p+1.

(** The conversion of an [int] operand in mixed arithmetic: the nearest
    double, ties to even.  (Python raises [OverflowError] from [2^1024]
    on.) *)
Definition of_int (n : Z) : float :=
  SF2Prim (SpecFloat.binary_normalize 53 1024 n 0 false).

(** [math.pow(2, z)], exact for [-1074 <= z <= 1023].  (Above, Python
    raises [OverflowError]; below, it returns [0.0] and the division by it
    raises [ZeroDivisionError].  The theorems on this module carry the
    range.) *)
Definition pow2 (z : Z) : float := Z.ldexp 1 z.

Definition pixels_to_meters (z x y : Z) : list float :=
  let res := (2 * pi * 6378137 / 256) / pow2 z in
  let mx := of_int x * res - (2 * pi * 6378137 / 2) in
  let my := of_int y * res - (2 * pi * 6378137 / 2) in
  let my := - my in
  [mx; my].

Definition meters_to_lat_lng (atan exp : float -> float) (coord : list float)
  : result (list float) :=
  c0 <- item coord 0 ;;
  let lng := (c0 / (2 * pi * 6378137 / 2)) * 180 in
  c1 <- item coord 1 ;;
  let lat := (c1 / (2 * pi * 6378137 / 2)) * 180 in
  let lat := 180 / pi * (2 * atan (exp (lat * pi / 180)) - pi / 2) in
  Ok [lng; lat].

Definition tile_bounds (z x y : Z) : result (list (list float)) :=
  if tile_is_valid z x y then
    let mins := pixels_to_meters z (x * 256) ((y + 1) * 256) in
    let maxs := pixels_to_meters z ((x + 1) * 256) (y * 256) in
    Ok [mins; maxs]
  else Raise (ValueError "Invalid tile").

Definition bounds_from_tile (atan exp : float -> float) (z x y : Z)
  : result (list float) :=
  bounds <- tile_bounds z x y ;;
  b0 <- item bounds 0 ;;
  mins <- meters_to_lat_lng atan exp b0 ;;
  b1 <- item bounds 1 ;;
  maxs <- meters_to_lat_lng atan exp b1 ;;
  mins0 <- item mins 0 ;;
  mins1 <- item mins 1 ;;
  maxs0 <- item maxs 0 ;;
  maxs1 <- item maxs 1 ;;
  Ok [mins0; mins1; maxs0; maxs1].

End Double.

(** ** The zoom-level enumerator *)

(** For [z < 0] the size [2 ** z] is a float and [range(size)] raises
    [TypeError]. *)
Definition zoom_generator (z : Z) : result (list (list Z)) :=
  if z <? 0 then Raise TypeError
  else
    let size := 2 ^ z in
    Ok (fold_left
          (fun tiles x =>
             fold_left (fun tiles y => tiles ++ [[z; x; y]]) (range 0 size) tiles)
          (range 0 size) []).

(** ** The containment predicate *)

(** [geojson.Feature(geometry={"coordinates": ..., "type": "Polygon"})]. *)
Record Feature : Type := {
  geometry_type : string;
  coordinates : list (list (list R))
}.

(** The closed five-point ring built from a box [[x0, y0, x1, y1]].  The
    source indexes the box ten times; an index out of range raises
    [IndexError] whichever comes first, so each item is read once here. *)
Definition rectangle (b : list R) : result Feature :=
  b0 <- item b 0 ;;
  b1 <- item b 1 ;;
  b2 <- item b 2 ;;
  b3 <- item b 3 ;;
  Ok {| geometry_type := "Polygon";
        coordinates := [[[b0; b1]; [b2; b1]; [b2; b3]; [b0; b3]; [b0; b1]]] |}.

Definition tile_bounds_within_overall_bounds
    (intersect : list Feature -> bool) (tile_bounds overlap_bounds : list R)
  : result bool :=
  a <- rectangle tile_bounds ;;
  b <- rectangle overlap_bounds ;;
  if intersect [a; b] then Ok true else Ok false.

(** ** The pyramid orchestrator *)

Definition world : list Q := [-180; -90; 180; 90]%Q.

Module TileGenerator.

Definition generate (intersect : list Feature -> bool) (self : GenerateTiles)
  : result (dict (list (list Z))) :=
  for_each
    (fun overall_tiles z =>
       tiles <- zoom_generator z ;;
       if negb (list_eq (bounds self) world) then
         valid_tiles <-
           for_each
             (fun valid_tiles tile =>
                t0 <- item tile 0 ;;
                t1 <- item tile 1 ;;
                t2 <- item tile 2 ;;
                tile_bounds <- bounds_from_tile t0 t1 t2 ;;
                within <- tile_bounds_within_overall_bounds intersect tile_bounds
                            (map Q2R (bounds self)) ;;
                if within then Ok (valid_tiles ++ [tile]) else Ok valid_tiles)
             tiles [] ;;
         Ok (dict_set overall_tiles z valid_tiles)
       else Ok (dict_set overall_tiles z tiles))
    (range (minZoom self) (maxZoom self + 1)) [].

End TileGenerator.

(** ** joblib's worker pool

    [Parallel(n_jobs=...)(delayed(f)(t) for t in tasks)] runs one task per
    item.  The result buffer has one slot per task; a task that completes
    writes its own slot.  [order] lists the tasks in the order in which the
    workers complete them.  The caller reads the slots by position: an empty
    slot means the call has not returned ([None]), a task that raised
    re-raises in the caller. *)

Fixpoint store {B : Type} (i : nat) (v : B) (buf : list (option B)) : list (option B) :=
  match buf, i with
  | [], _ => []
  | _ :: rest, O => Some v :: rest
  | slot :: rest, S j => slot :: store j v rest
  end.

Definition complete {A B : Type} (f : A -> B) (tasks : list A)
    (buf : list (option B)) (i : nat) : list (option B) :=
  match nth_error tasks i with
  | Some a => store i (f a) buf
  | None => buf
  end.

Fixpoint retrieve {B : Type} (buf : list (option (result B))) : option (result (list B)) :=
  match buf with
  | [] => Some (Ok [])
  | None :: _ => None
  | Some (Raise e) :: _ => Some (Raise e)
  | Some (Ok b) :: rest =>
      match retrieve rest with
      | Some (Ok bs) => Some (Ok (b :: bs))
      | other => other
      end
  end.

Definition Parallel {A B : Type} (order : list nat) (f : A -> result B) (tasks : list A)
  : option (result (list B)) :=
  retrieve (fold_left (complete f tasks) order (repeat None (length tasks))).

(** A [for] loop around a call that returns only when the pool is done. *)
Fixpoint for_each_pool {S A : Type} (body : S -> A -> option (result S))
    (items : list A) (s : S) : option (result S) :=
  match items with
  | [] => Some (Ok s)
  | a :: rest =>
      match body s a with
      | Some (Ok s') => for_each_pool body rest s'
      | other => other
      end
  end.

(** The joblib class names its fields [min_zoom] and [max_zoom]; its
    constructor and its other methods are those of the sequential class. *)
Module VectorTileGenerator.

Definition validate_tile (intersect : list Feature -> bool) (self : GenerateTiles)
    (tile : list Z) : result (list Z) :=
  t0 <- item tile 0 ;;
  t1 <- item tile 1 ;;
  t2 <- item tile 2 ;;
  tile_bounds <- bounds_from_tile t0 t1 t2 ;;
  within <- tile_bounds_within_overall_bounds intersect tile_bounds
              (map Q2R (bounds self)) ;;
  if within then Ok tile else Ok [].

(** [order z] is the completion order of the workers at zoom level [z]. *)
Definition generate (intersect : list Feature -> bool) (order : Z -> list nat)
    (self : GenerateTiles) : option (result (dict (list (list Z)))) :=
  for_each_pool
    (fun overall_tiles z =>
       match zoom_generator z with
       | Raise e => Some (Raise e)
       | Ok tiles =>
           if negb (list_eq (bounds self) world) then
             match Parallel (order z) (validate_tile intersect self) tiles with
             | None => None
             | Some (Raise e) => Some (Raise e)
             | Some (Ok filtered_tiles) =>
                 Some (Ok (dict_set overall_tiles z
                             (filter (fun x => (0 <? length x)%nat) filtered_tiles)))
             end
           else Some (Ok (dict_set overall_tiles z tiles))
       end)
    (range (minZoom self) (maxZoom self + 1)) [].

End VectorTileGenerator.

(** * Reference definitions

    What the specification says, written out so that the code can be compared
    with it. *)

(** The canonical enumeration of zoom level [z]: x-major, then y, both
    ascending from [0] to [2^z - 1]. *)
Definition grid (z : Z) : list (list Z) :=
  flat_map (fun x => map (fun y => [z; x; y]) (range 0 (2 ^ z))) (range 0 (2 ^ z)).

(** The validation rules of the constructor, in the order in which the
    specification lists them. *)
Inductive rule : Type :=
| MinZoomRange
| MaxZoomRange
| ZoomOrder
| BoundsLength
| MinX
| MinY
| MaxX
| MaxY
| XOrder
| YOrder.

Definition rules : list rule :=
  [MinZoomRange; MaxZoomRange; ZoomOrder; BoundsLength;
   MinX; MinY; MaxX; MaxY; XOrder; YOrder].

(** A rule about [bounds[i]] is violated by the value at that index; a list
    too short to have one violates [BoundsLength] instead. *)
Definition at_index (b : list Q) (i : nat) (p : Q -> bool) : bool :=
  match nth_error b i with
  | Some v => p v
  | None => false
  end.

Definition violated (r : rule) (minZoom maxZoom : Z) (b : list Q) : bool :=
  match r with
  | MinZoomRange => (minZoom <? 1) || (20 <? minZoom)
  | MaxZoomRange => (maxZoom <? 1) || (20 <? maxZoom)
  | ZoomOrder => maxZoom <? minZoom
  | BoundsLength => negb (Nat.eqb (length b) 4)
  | MinX => at_index b 0 (fun b0 => Qlt_bool b0 (-180))
  | MinY => at_index b 1 (fun b1 => Qlt_bool b1 (-90))
  | MaxX => at_index b 2 (fun b2 => Qlt_bool 180 b2)
  | MaxY => at_index b 3 (fun b3 => Qlt_bool 90 b3)
  | XOrder => at_index b 0 (fun b0 => at_index b 2 (fun b2 => Qlt_bool b2 b0))
  | YOrder => at_index b 1 (fun b1 => at_index b 3 (fun b3 => Qlt_bool b3 b1))
  end.

Definition first_violation (minZoom maxZoom : Z) (b : list Q) : option rule :=
  find (fun r => violated r minZoom maxZoom b) rules.

(** The rule a [ValueError] of the constructor reports, read off its
    message. *)
Definition reported_rule (e : exn) : option rule :=
  match e with
  | ValueError msg =>
      if String.eqb msg "minZoom must be less than or equal to 20" then Some MinZoomRange
      else if String.eqb msg "minZoom must be greater than or equal to 1" then Some MinZoomRange
      else if String.eqb msg "maxZoom must be greater than or equal to 1" then Some MaxZoomRange
      else if String.eqb msg "maxZoom must be greater than or equal to 20" then Some MaxZoomRange
      else if String.eqb msg "minZoom must be less than or equal to maxZoom" then Some ZoomOrder
      else if String.eqb msg "maxZoom must be greater than or equal to minZoom" then Some ZoomOrder
      else if String.eqb msg "Incorrect length for bounds. Ex.[-180, -90, 180, 90]" then Some BoundsLength
      else if String.eqb msg "Minimum x bounds must be greater than or equal to -180" then Some MinX
      else if String.eqb msg "Minimum y bounds must be greater than or equal to -90" then Some MinY
      else if String.eqb msg "Maximum x bounds must be less than or equal to 180" then Some MaxX
      else if String.eqb msg "Maximum y bounds must be less than or equal to 90" then Some MaxY
      else if String.eqb msg "Minimum x bounds must be less than maximum x bounds" then Some XOrder
      else if String.eqb msg "Minimum y bounds must be less than maximum y bounds" then Some YOrder
      else None
  | _ => None
  end.

(** Half the equator in metres, [pi * R], as the source writes it. *)
Definition half_equator : R := (2 * PI * 6378137 / 2)%R.

(** The two components of [meters_to_lat_lng], each a function of one
    projected coordinate. *)
Definition lng_of (m : R) : R := (m / (2 * PI * 6378137 / 2) * 180)%R.

Definition lat_of (m : R) : R :=
  (180 / PI * (2 * atan (exp (m / (2 * PI * 6378137 / 2) * 180 * PI / 180)) - PI / 2))%R.

(** The tiles of a list that pass a test, in the order of the list; the
    first test that raises ends the pass. *)
Fixpoint collect {A : Type} (test : A -> result bool) (tiles : list A) : result (list A) :=
  match tiles with
  | [] => Ok []
  | t :: rest =>
      w <- test t ;;
      kept <- collect test rest ;;
      Ok (if w then t :: kept else kept)
  end.

(** Every task run in turn, by position. *)
Fixpoint run_all {A B : Type} (f : A -> result B) (tasks : list A) : result (list B) :=
  match tasks with
  | [] => Ok []
  | a :: rest => b <- f a ;; bs <- run_all f rest ;; Ok (b :: bs)
  end.

(** A completion order of [n] tasks: each task completes exactly once. *)
Definition schedule (n : nat) (order : list nat) : Prop :=
  Permutation order (seq 0 n).

(** The per-tile evaluation of both engines: the geographic box of the tile
    and its containment test against [self.bounds]. *)
Definition tile_test (intersect : list Feature -> bool) (self : GenerateTiles)
    (tile : list Z) : result bool :=
  t0 <- item tile 0 ;;
  t1 <- item tile 1 ;;
  t2 <- item tile 2 ;;
  tile_bounds <- bounds_from_tile t0 t1 t2 ;;
  tile_bounds_within_overall_bounds intersect tile_bounds (map Q2R (bounds self)).

(** The containment test of a tile as a boolean. *)
Definition within (intersect : list Feature -> bool) (self : GenerateTiles)
    (tile : list Z) : bool :=
  match tile_test intersect self tile with
  | Ok w => w
  | Raise _ => false
  end.

(** What [generate] stores at zoom level [z]. *)
Definition survivors (intersect : list Feature -> bool) (self : GenerateTiles)
    (z : Z) : list (list Z) :=
  if list_eq (bounds self) world then grid z
  else filter (within intersect self) (grid z).

Definition pyramid (intersect : list Feature -> bool) (self : GenerateTiles)
  : dict (list (list Z)) :=
  map (fun z => (z, survivors intersect self z))
      (range (minZoom self) (maxZoom self + 1)).

(** The polygon feature of a box, as [rectangle] builds it. *)
Definition box (x0 y0 x1 y1 : R) : Feature :=
  {| geometry_type := "Polygon";
     coordinates := [[[x0; y0]; [x1; y0]; [x1; y1]; [x0; y1]; [x0; y0]]] |}.

(** A boundary-inclusive intersection primitive: two boxes that share at
    least one point, interior or boundary, intersect. *)
Definition boundary_inclusive (intersect : list Feature -> bool) : Prop :=
  forall ax0 ay0 ax1 ay1 bx0 by0 bx1 by1 : R,
    (ax0 <= ax1)%R -> (ay0 <= ay1)%R -> (bx0 <= bx1)%R -> (by0 <= by1)%R ->
    (ax0 <= bx1)%R -> (bx0 <= ax1)%R -> (ay0 <= by1)%R -> (by0 <= ay1)%R ->
    intersect [box ax0 ay0 ax1 ay1; box bx0 by0 bx1 by1] = true.

(** One such primitive: the closed-box overlap test on the first and third
    vertex of each ring. *)
Definition corners (f : Feature) : option (R * R * R * R) :=
  match coordinates f with
  | [[x0; y0] :: _ :: [x1; y1] :: _] => Some (x0, y0, x1, y1)
  | _ => None
  end.

Definition Rle_bool (a b : R) : bool := if Rle_dec a b then true else false.

Definition box_intersect (fs : list Feature) : bool :=
  match fs with
  | [a; b] =>
      match corners a, corners b with
      | Some (ax0, ay0, ax1, ay1), Some (bx0, by0, bx1, by1) =>
          Rle_bool ax0 bx1 && Rle_bool bx0 ax1 && Rle_bool ay0 by1 && Rle_bool by0 ay1
      | _, _ => false
      end
  | _ => false
  end.

(** The longitude and the latitude that the binary64 code computes for a
    pixel column and a pixel row at zoom [z]. *)
Definition double_lng (z px : Z) : float :=
  ((Double.of_int px * (2 * Double.pi * 6378137 / 256 / Double.pow2 z)
    - 2 * Double.pi * 6378137 / 2)
   / (2 * Double.pi * 6378137 / 2) * 180)%float.

Definition double_lat (atan exp : float -> float) (z py : Z) : float :=
  (180 / Double.pi
   * (2 * atan (exp (- (Double.of_int py * (2 * Double.pi * 6378137 / 256 / Double.pow2 z)
                        - 2 * Double.pi * 6378137 / 2)
                     / (2 * Double.pi * 6378137 / 2) * 180 * Double.pi / 180))
      - Double.pi / 2))%float.

(** The messages of the twelve checks of the constructor that can fire. *)
Definition init_messages : list string :=
  ["minZoom must be less than or equal to 20";
   "minZoom must be greater than or equal to 1";
   "maxZoom must be greater than or equal to 1";
   "maxZoom must be greater than or equal to 20";
   "minZoom must be less than or equal to maxZoom";
   "Incorrect length for bounds. Ex.[-180, -90, 180, 90]";
   "Minimum x bounds must be greater than or equal to -180";
   "Minimum y bounds must be greater than or equal to -90";
   "Maximum x bounds must be less than or equal to 180";
   "Maximum y bounds must be less than or equal to 90";
   "Minimum x bounds must be less than maximum x bounds";
   "Minimum y bounds must be less than maximum y bounds"]%string.

(** ** The binary64 corners, zoom level by zoom level

    [double_mx z px] is the x-metre that the binary64 code computes for the
    pixel column [px] at zoom [z]; the y-metre of a pixel row is its
    negation.  [lng_from], [exp_arg_from] and [lat_from] are the steps of
    the binary64 [meters_to_lat_lng]: the longitude of an x-metre, the
    argument that [math.exp] receives for a y-metre, and the latitude
    computed from that argument. *)






(** [check_zoom z] evaluates [ordered] on every pair of consecutive pixel
    columns of zoom [z], with the pixel numbers as machine integers. *)
Section Fast.
Import Uint63.
Local Open Scope Z_scope.




End Fast.

(** * Properties *)

(** ** [range] *)

Lemma range_length (a b : Z) : length (range a b) = Z.to_nat (b - a).
Proof. unfold range. now rewrite length_map, length_seq. Qed.

Lemma range_nth_error (a b : Z) (i : nat) :
  (i < Z.to_nat (b - a))%nat -> nth_error (range a b) i = Some (a + Z.of_nat i).
Proof.
  intros Hi. unfold range.
  rewrite nth_error_map, nth_error_seq.
  destruct (Nat.ltb_spec i (Z.to_nat (b - a))); [reflexivity | lia].
Qed.

Lemma range_In (a b x : Z) : In x (range a b) <-> a <= x < b.
Proof.
  unfold range. rewrite in_map_iff. split.
  - intros (i & <- & Hi). apply in_seq in Hi. lia.
  - intros Hx. exists (Z.to_nat (x - a)). split; [lia |].
    apply in_seq. lia.
Qed.

(** ** The constructor *)

Lemma init_first_violation (mn mx : Z) (b : list Q) :
  match first_violation mn mx b with
  | Some r =>
      exists msg, __init__ mn mx b = Raise (ValueError msg)
                  /\ reported_rule (ValueError msg) = Some r
  | None => __init__ mn mx b = Ok {| minZoom := mn; maxZoom := mx; bounds := b |}
  end.
Proof.
  unfold first_violation, rules, __init__, find, violated.
  rewrite (Z.gtb_ltb mn 20), (Z.gtb_ltb mx 20), (Z.gtb_ltb mn mx).
  destruct (20 <? mn) eqn:E1; [rewrite orb_true_r; eexists; split; reflexivity |].
  destruct (mn <? 1) eqn:E2; [eexists; split; reflexivity |].
  destruct (mx <? 1) eqn:E3; [eexists; split; reflexivity |].
  destruct (20 <? mx) eqn:E4; [eexists; split; reflexivity |].
  destruct (mx <? mn) eqn:E5; [eexists; split; reflexivity |].
  cbn [orb].
  destruct b as [| b0 [| b1 [| b2 [| b3 [| b4 b']]]]];
    try (eexists; split; reflexivity).
  cbn [length Nat.eqb negb at_index nth_error item bind].
  destruct (Qlt_bool b0 (-180)); [eexists; split; reflexivity |].
  destruct (Qlt_bool b1 (-90)); [eexists; split; reflexivity |].
  destruct (Qlt_bool 180 b2); [eexists; split; reflexivity |].
  destruct (Qlt_bool 90 b3); [eexists; split; reflexivity |].
  destruct (Qlt_bool b2 b0); [eexists; split; reflexivity |].
  destruct (Qlt_bool b3 b1); [eexists; split; reflexivity |].
  reflexivity.
Qed.

Lemma first_violation_none (mn mx : Z) (b : list Q) :
  first_violation mn mx b = None <-> forall r, violated r mn mx b = false.
Proof.
  unfold first_violation. split.
  - intros Hnone r.
    apply (find_none _ _ Hnone r). unfold rules. destruct r; simpl; tauto.
  - intros Hall.
    destruct (find _ rules) as [r |] eqn:Hfind; [| reflexivity].
    apply find_some in Hfind. destruct Hfind as [_ Hr].
    rewrite Hall in Hr. discriminate.
Qed.

(** ** The enumerator *)

Lemma fold_left_append {A B : Type} (f : B -> A) (ys : list B) (acc : list A) :
  fold_left (fun tiles y => tiles ++ [f y]) ys acc = acc ++ map f ys.
Proof.
  revert acc. induction ys as [| y ys IH]; intros acc; simpl.
  - now rewrite app_nil_r.
  - rewrite IH, <- app_assoc. reflexivity.
Qed.

Lemma fold_left_rows {A B C : Type} (f : B -> C -> A) (xs : list B) (ys : list C)
    (acc : list A) :
  fold_left (fun tiles x => fold_left (fun tiles y => tiles ++ [f x y]) ys tiles) xs acc
  = acc ++ flat_map (fun x => map (f x) ys) xs.
Proof.
  revert acc. induction xs as [| x xs IH]; intros acc; simpl.
  - now rewrite app_nil_r.
  - rewrite IH, fold_left_append, <- app_assoc. reflexivity.
Qed.

Lemma zoom_generator_grid (z : Z) : 0 <= z -> zoom_generator z = Ok (grid z).
Proof.
  intros Hz. unfold zoom_generator, grid.
  destruct (Z.ltb_spec z 0); [lia |].
  now rewrite (fold_left_rows (fun x y => [z; x; y])).
Qed.

Lemma zoom_generator_negative (z : Z) : z < 0 -> zoom_generator z = Raise TypeError.
Proof.
  intros Hz. unfold zoom_generator. destruct (Z.ltb_spec z 0); [reflexivity | lia].
Qed.

Lemma grid_In (z : Z) (t : list Z) :
  In t (grid z) <-> exists x y, t = [z; x; y] /\ 0 <= x < 2 ^ z /\ 0 <= y < 2 ^ z.
Proof.
  unfold grid. rewrite in_flat_map. split.
  - intros (x & Hx & Ht). apply in_map_iff in Ht. destruct Ht as (y & <- & Hy).
    apply range_In in Hx. apply range_In in Hy. now exists x, y.
  - intros (x & y & -> & Hx & Hy). exists x. split; [now apply range_In |].
    apply in_map_iff. exists y. split; [reflexivity | now apply range_In].
Qed.

Lemma flat_map_uniform_length {A B : Type} (f : A -> list B) (n : nat) (l : list A) :
  (forall a, length (f a) = n) -> length (flat_map f l) = (length l * n)%nat.
Proof.
  intros Hf. induction l as [| a l IH]; simpl; [reflexivity |].
  now rewrite length_app, Hf, IH.
Qed.

Lemma flat_map_uniform_nth {A B : Type} (f : A -> list B) (n : nat) (l : list A)
    (i j : nat) (a : A) :
  (forall a, length (f a) = n) -> nth_error l i = Some a -> (j < n)%nat ->
  nth_error (flat_map f l) (i * n + j) = nth_error (f a) j.
Proof.
  intros Hf. revert i. induction l as [| a0 l IH]; intros i Hi Hj.
  - destruct i; discriminate.
  - destruct i as [| i]; simpl in *.
    + injection Hi as ->. rewrite nth_error_app1; [reflexivity | now rewrite Hf].
    + rewrite nth_error_app2; rewrite Hf; [| lia].
      replace (n + i * n + j - n)%nat with (i * n + j)%nat by lia.
      now apply IH.
Qed.

Lemma grid_length (z : Z) : 0 <= z -> Z.of_nat (length (grid z)) = 4 ^ z.
Proof.
  intros Hz. unfold grid.
  rewrite (flat_map_uniform_length _ (Z.to_nat (2 ^ z))).
  - rewrite range_length, Z.sub_0_r.
    assert (0 < 2 ^ z) by (apply Z.pow_pos_nonneg; lia).
    rewrite Nat2Z.inj_mul, Z2Nat.id by lia.
    replace 4 with (2 * 2) by reflexivity.
    now rewrite Z.pow_mul_l.
  - intros x. now rewrite length_map, range_length, Z.sub_0_r.
Qed.

Lemma grid_nth_error (z x y : Z) :
  0 <= x < 2 ^ z -> 0 <= y < 2 ^ z ->
  nth_error (grid z) (Z.to_nat (x * 2 ^ z + y)) = Some [z; x; y].
Proof.
  intros Hx Hy. unfold grid.
  replace (Z.to_nat (x * 2 ^ z + y))
    with (Z.to_nat x * Z.to_nat (2 ^ z) + Z.to_nat y)%nat by nia.
  rewrite (flat_map_uniform_nth _ (Z.to_nat (2 ^ z)) _ _ _ x).
  - rewrite nth_error_map, range_nth_error by lia.
    simpl. now rewrite Z2Nat.id by lia.
  - intros a. now rewrite length_map, range_length, Z.sub_0_r.
  - rewrite range_nth_error by lia. f_equal. lia.
  - lia.
Qed.

Lemma range_NoDup (a b : Z) : NoDup (range a b).
Proof.
  unfold range. apply Finite.Injective_map_NoDup; [| apply seq_NoDup].
  intros i j Hij. lia.
Qed.

Lemma grid_NoDup (z : Z) : NoDup (grid z).
Proof.
  unfold grid. generalize (range_NoDup 0 (2 ^ z)).
  generalize (range 0 (2 ^ z)) at 1 3 as xs.
  induction xs as [| x xs IH]; intros Hxs; simpl; [constructor |].
  inversion Hxs as [| ? ? Hx Hxs']; subst.
  apply NoDup_app.
  - apply Finite.Injective_map_NoDup; [| apply range_NoDup].
    intros y1 y2 Hy. now injection Hy.
  - now apply IH.
  - intros t Ht Ht'.
    apply in_map_iff in Ht. destruct Ht as (y & <- & _).
    apply in_flat_map in Ht'. destruct Ht' as (x' & Hx' & Ht').
    apply in_map_iff in Ht'. destruct Ht' as (y' & Heq & _).
    injection Heq as -> _. contradiction.
Qed.

(** ** Tile validity *)

Lemma size_le (z x : Z) :
  0 <= z -> Qle_bool (Qpower 2 z) (inject_Z x) = (2 ^ z <=? x).
Proof.
  intros Hz. apply eq_true_iff_eq.
  rewrite Qle_bool_iff, Z.leb_le, Zle_Qle, (Zpower_Qpower 2 z Hz).
  reflexivity.
Qed.

Lemma tile_is_valid_iff (z x y : Z) :
  0 <= z -> tile_is_valid z x y = true <-> 0 <= x < 2 ^ z /\ 0 <= y < 2 ^ z.
Proof.
  intros Hz. unfold tile_is_valid. rewrite !size_le by assumption.
  destruct (Z.leb_spec (2 ^ z) x), (Z.leb_spec (2 ^ z) y),
    (Z.ltb_spec x 0), (Z.ltb_spec y 0); simpl; split;
    solve [discriminate | reflexivity | lia].
Qed.

Lemma tile_is_valid_false_iff (z x y : Z) :
  0 <= z ->
  tile_is_valid z x y = false <-> x < 0 \/ y < 0 \/ 2 ^ z <= x \/ 2 ^ z <= y.
Proof.
  intros Hz. rewrite <- not_true_iff_false, tile_is_valid_iff by assumption. lia.
Qed.

Lemma grid_valid (z : Z) (t : list Z) :
  0 <= z -> In t (grid z) -> exists x y, t = [z; x; y] /\ tile_is_valid z x y = true.
Proof.
  intros Hz Ht. apply grid_In in Ht. destruct Ht as (x & y & -> & Hx & Hy).
  exists x, y. split; [reflexivity |]. now apply tile_is_valid_iff.
Qed.

Lemma tile_bounds_cases (z x y : Z) :
  tile_bounds z x y =
  if tile_is_valid z x y then
    Ok [pixels_to_meters z (x * 256) ((y + 1) * 256);
        pixels_to_meters z ((x + 1) * 256) (y * 256)]
  else Raise (ValueError "Invalid tile").
Proof. reflexivity. Qed.

(** ** Projection math *)

Section Projection.

Local Open Scope R_scope.

Lemma half_eq : half_equator = PI * 6378137.
Proof. unfold half_equator. lra. Qed.

Lemma half_pos : 0 < half_equator.
Proof. rewrite half_eq. generalize PI_RGT_0. lra. Qed.

Lemma res_pos (z : Z) : 0 < (2 * PI * 6378137 / 256) / powerRZ 2 z.
Proof.
  apply Rdiv_lt_0_compat.
  - generalize PI_RGT_0. lra.
  - apply powerRZ_lt. lra.
Qed.


Lemma lng_of_increasing (m1 m2 : R) : m1 < m2 -> lng_of m1 < lng_of m2.
Proof.
  intros Hm. unfold lng_of. fold half_equator.
  apply Rmult_lt_compat_r; [lra |].
  unfold Rdiv. apply Rmult_lt_compat_r; [| assumption].
  apply Rinv_0_lt_compat, half_pos.
Qed.

Lemma lat_of_increasing (m1 m2 : R) : m1 < m2 -> lat_of m1 < lat_of m2.
Proof.
  intros Hm. unfold lat_of. fold half_equator.
  assert (Hpi := PI_RGT_0).
  assert (Hscale : 0 < 180 / PI) by (apply Rdiv_lt_0_compat; lra).
  apply Rmult_lt_compat_l; [assumption |].
  assert (Harg : m1 / half_equator * 180 * PI / 180
                 < m2 / half_equator * 180 * PI / 180).
  { unfold Rdiv. repeat (apply Rmult_lt_compat_r; [lra |]).
    apply Rmult_lt_compat_r; [| assumption].
    apply Rinv_0_lt_compat, half_pos. }
  apply exp_increasing, atan_increasing in Harg. lra.
Qed.

Lemma lng_of_0 : lng_of 0 = 0.
Proof. unfold lng_of. fold half_equator. unfold Rdiv. now rewrite !Rmult_0_l. Qed.

Lemma lat_of_0 : lat_of 0 = 0.
Proof.
  unfold lat_of. fold half_equator.
  replace (0 / half_equator * 180 * PI / 180) with 0
    by (unfold Rdiv; now rewrite !Rmult_0_l).
  rewrite exp_0, atan_1. assert (Hpi := PI_RGT_0). field. lra.
Qed.

(** The geographic box of a tile, corner by corner. *)
Lemma bounds_from_tile_valid (z x y : Z) :
  tile_is_valid z x y = true ->
  let r := (2 * PI * 6378137 / 256) / powerRZ 2 z in
  bounds_from_tile z x y
  = Ok [lng_of (IZR (x * 256) * r - half_equator);
        lat_of (- (IZR ((y + 1) * 256) * r - half_equator));
        lng_of (IZR ((x + 1) * 256) * r - half_equator);
        lat_of (- (IZR (y * 256) * r - half_equator))].
Proof.
  intros Hv r. unfold bounds_from_tile, tile_bounds. rewrite Hv.
  reflexivity.
Qed.

Lemma bounds_from_tile_invalid (z x y : Z) :
  tile_is_valid z x y = false ->
  bounds_from_tile z x y = Raise (ValueError "Invalid tile").
Proof.
  intros Hv. unfold bounds_from_tile, tile_bounds. now rewrite Hv.
Qed.

End Projection.

(** ** What a constructed instance satisfies *)

Lemma init_ok (mn mx : Z) (b : list Q) (self : GenerateTiles) :
  __init__ mn mx b = Ok self ->
  self = {| minZoom := mn; maxZoom := mx; bounds := b |}
  /\ 1 <= mn /\ mn <= mx /\ mx <= 20 /\ length b = 4%nat.
Proof.
  unfold __init__.
  destruct (Z.gtb_spec mn 20); [discriminate |].
  destruct (Z.ltb_spec mn 1); [discriminate |].
  destruct (Z.ltb_spec mx 1); [discriminate |].
  destruct (Z.gtb_spec mx 20); [discriminate |].
  destruct (Z.gtb_spec mn mx); [discriminate |].
  destruct (Z.ltb_spec mx mn); [discriminate |].
  destruct b as [| b0 [| b1 [| b2 [| b3 [| b4 b']]]]]; try discriminate.
  cbn [length Nat.eqb negb item nth_error bind].
  destruct (Qlt_bool b0 (-180)); [discriminate |].
  destruct (Qlt_bool b1 (-90)); [discriminate |].
  destruct (Qlt_bool 180 b2); [discriminate |].
  destruct (Qlt_bool 90 b3); [discriminate |].
  destruct (Qlt_bool b2 b0); [discriminate |].
  destruct (Qlt_bool b3 b1); [discriminate |].
  intros [= <-]. repeat split; lia.
Qed.

(** ** Loops *)

Lemma for_each_collect {A : Type} (test : A -> result bool) (tiles acc : list A) :
  for_each
    (fun valid_tiles tile =>
       w <- test tile ;; if w then Ok (valid_tiles ++ [tile]) else Ok valid_tiles)
    tiles acc
  = (kept <- collect test tiles ;; Ok (acc ++ kept)).
Proof.
  revert acc. induction tiles as [| t tiles IH]; intros acc; simpl.
  - now rewrite app_nil_r.
  - destruct (test t) as [[|] | e]; simpl; [| | reflexivity].
    + rewrite IH. destruct (collect test tiles); simpl; [| reflexivity].
      now rewrite <- app_assoc.
    + rewrite IH. now destruct (collect test tiles).
Qed.

Lemma collect_filter {A : Type} (test : A -> result bool) (p : A -> bool)
    (tiles : list A) :
  (forall t, In t tiles -> test t = Ok (p t)) ->
  collect test tiles = Ok (filter p tiles).
Proof.
  induction tiles as [| t tiles IH]; intros Htest; simpl; [reflexivity |].
  rewrite (Htest t) by now left. simpl.
  rewrite IH by (intros t' Ht'; apply Htest; now right). reflexivity.
Qed.

Lemma for_each_ext {S A : Type} (f g : S -> A -> result S) (items : list A) (s : S) :
  (forall s a, In a items -> f s a = g s a) ->
  for_each f items s = for_each g items s.
Proof.
  revert s. induction items as [| a items IH]; intros s Hfg; simpl; [reflexivity |].
  rewrite (Hfg s a) by now left.
  destruct (g s a); simpl; [| reflexivity].
  apply IH. intros s' a' Ha'. apply Hfg. now right.
Qed.

Lemma dict_set_fresh {V : Type} (d : dict V) (k : Z) (v : V) :
  ~ In k (keys d) -> dict_set d k v = d ++ [(k, v)].
Proof.
  induction d as [| [k' v'] d IH]; intros Hk; simpl; [reflexivity |].
  simpl in Hk. destruct (Z.eqb_spec k' k); [tauto |].
  rewrite IH by tauto. reflexivity.
Qed.

Lemma for_each_dict {V : Type} (level : Z -> V) (zs : list Z) (d : dict V) :
  NoDup zs -> (forall z, In z zs -> ~ In z (keys d)) ->
  for_each (fun overall z => Ok (dict_set overall z (level z))) zs d
  = Ok (d ++ map (fun z => (z, level z)) zs).
Proof.
  revert d. induction zs as [| z zs IH]; intros d Hnd Hfresh; simpl.
  - now rewrite app_nil_r.
  - inversion Hnd as [| ? ? Hz Hnd']; subst.
    rewrite dict_set_fresh by (apply Hfresh; now left).
    rewrite IH; [now rewrite <- app_assoc | assumption |].
    intros z' Hz'. unfold keys. rewrite map_app, in_app_iff. simpl.
    intros [Hin | [-> | []]]; [| contradiction].
    apply (Hfresh z'); [now right | assumption].
Qed.

(** ** The per-tile test *)

Lemma tile_test_valid (intersect : list Feature -> bool) (self : GenerateTiles)
    (z x y : Z) (b0 b1 b2 b3 : Q) :
  bounds self = [b0; b1; b2; b3] -> tile_is_valid z x y = true ->
  let r := ((2 * PI * 6378137 / 256) / powerRZ 2 z)%R in
  let half := (2 * PI * 6378137 / 2)%R in
  tile_test intersect self [z; x; y]
  = Ok (intersect
          [box (lng_of (IZR (x * 256) * r - half))
               (lat_of (- (IZR ((y + 1) * 256) * r - half)))
               (lng_of (IZR ((x + 1) * 256) * r - half))
               (lat_of (- (IZR (y * 256) * r - half)));
           box (Q2R b0) (Q2R b1) (Q2R b2) (Q2R b3)]).
Proof.
  intros Hb Hv r half. unfold tile_test.
  cbn [item nth_error bind].
  rewrite (bounds_from_tile_valid z x y Hv), Hb.
  cbn [bind map tile_bounds_within_overall_bounds rectangle item nth_error].
  fold r half. unfold box.
  now destruct (intersect _).
Qed.

Lemma tile_test_within (intersect : list Feature -> bool) (self : GenerateTiles)
    (z : Z) (t : list Z) :
  0 <= z -> length (bounds self) = 4%nat -> In t (grid z) ->
  tile_test intersect self t = Ok (within intersect self t).
Proof.
  intros Hz Hlen Ht.
  destruct (grid_valid z t Hz Ht) as (x & y & -> & Hv).
  destruct (bounds self) as [| b0 [| b1 [| b2 [| b3 [| b4 b']]]]] eqn:Hb;
    try discriminate.
  unfold within. now rewrite (tile_test_valid intersect self z x y b0 b1 b2 b3 Hb Hv).
Qed.

Lemma tile_test_nonempty (intersect : list Feature -> bool) (self : GenerateTiles)
    (t : list Z) (w : bool) :
  tile_test intersect self t = Ok w -> t <> [].
Proof. intros Ht ->. discriminate. Qed.

(** ** The sequential engine *)

(** The loop over the tiles of a level keeps the tiles that pass
    [tile_test]. *)
Lemma loop_collect (intersect : list Feature -> bool) (self : GenerateTiles)
    (tiles acc : list (list Z)) :
  for_each
    (fun valid_tiles tile =>
       t0 <- item tile 0 ;;
       t1 <- item tile 1 ;;
       t2 <- item tile 2 ;;
       tile_bounds <- bounds_from_tile t0 t1 t2 ;;
       within <- tile_bounds_within_overall_bounds intersect tile_bounds
                   (map Q2R (bounds self)) ;;
       if within then Ok (valid_tiles ++ [tile]) else Ok valid_tiles)
    tiles acc
  = (kept <- collect (tile_test intersect self) tiles ;; Ok (acc ++ kept)).
Proof.
  rewrite <- for_each_collect. apply for_each_ext. intros valid tile _.
  unfold tile_test.
  destruct (item tile 0); [| reflexivity].
  destruct (item tile 1); [| reflexivity].
  destruct (item tile 2); [| reflexivity].
  cbn [bind]. now destruct (bounds_from_tile _ _ _).
Qed.

Lemma level_sequential (intersect : list Feature -> bool) (self : GenerateTiles)
    (z : Z) :
  0 <= z -> length (bounds self) = 4%nat ->
  (if negb (list_eq (bounds self) world) then
     for_each
       (fun valid_tiles tile =>
          t0 <- item tile 0 ;;
          t1 <- item tile 1 ;;
          t2 <- item tile 2 ;;
          tile_bounds <- bounds_from_tile t0 t1 t2 ;;
          within <- tile_bounds_within_overall_bounds intersect tile_bounds
                      (map Q2R (bounds self)) ;;
          if within then Ok (valid_tiles ++ [tile]) else Ok valid_tiles)
       (grid z) []
   else Ok (grid z))
  = Ok (survivors intersect self z).
Proof.
  intros Hz Hlen. unfold survivors.
  destruct (list_eq (bounds self) world); cbn [negb]; [reflexivity |].
  rewrite loop_collect.
  rewrite (collect_filter _ (within intersect self)); [reflexivity |].
  intros t Ht. now apply (tile_test_within intersect self z).
Qed.

Lemma generate_pyramid (intersect : list Feature -> bool) (mn mx : Z) (b : list Q)
    (self : GenerateTiles) :
  __init__ mn mx b = Ok self ->
  TileGenerator.generate intersect self = Ok (pyramid intersect self).
Proof.
  intros Hinit. destruct (init_ok mn mx b self Hinit) as (-> & Hmn & _ & _ & Hlen).
  unfold TileGenerator.generate, pyramid.
  rewrite (for_each_ext _
             (fun overall z =>
                Ok (dict_set overall z
                      (survivors intersect
                         {| minZoom := mn; maxZoom := mx; bounds := b |} z)))).
  - rewrite for_each_dict; [reflexivity | apply range_NoDup | intros z _ []].
  - intros d z Hz. apply range_In in Hz. cbn [minZoom maxZoom] in Hz.
    rewrite zoom_generator_grid by lia. cbn [bind].
    generalize (level_sequential intersect
                  {| minZoom := mn; maxZoom := mx; bounds := b |} z
                  ltac:(lia) Hlen).
    destruct (negb _); intros Hlevel.
    + now rewrite Hlevel.
    + now injection Hlevel as ->.
Qed.

(** ** The worker pool *)

Lemma store_length {B : Type} (i : nat) (v : B) (buf : list (option B)) :
  length (store i v buf) = length buf.
Proof.
  revert i. induction buf as [| slot buf IH]; intros [| i]; simpl; auto.
Qed.

Lemma store_same {B : Type} (i : nat) (v : B) (buf : list (option B)) :
  (i < length buf)%nat -> nth_error (store i v buf) i = Some (Some v).
Proof.
  revert i. induction buf as [| slot buf IH]; intros [| i] Hi; simpl in *;
    try lia; [reflexivity |].
  apply IH. lia.
Qed.

Lemma store_other {B : Type} (i j : nat) (v : B) (buf : list (option B)) :
  i <> j -> nth_error (store i v buf) j = nth_error buf j.
Proof.
  revert i j. induction buf as [| slot buf IH]; intros [| i] [| j] Hij; simpl;
    try reflexivity; try congruence.
  apply IH. congruence.
Qed.

Lemma complete_length {A B : Type} (f : A -> B) (tasks : list A)
    (buf : list (option B)) (i : nat) :
  length (complete f tasks buf i) = length buf.
Proof.
  unfold complete. destruct (nth_error tasks i); [apply store_length | reflexivity].
Qed.

Section Pool.

Context {A B : Type} (f : A -> B) (tasks : list A).

(** A slot that holds its task's result keeps it, whatever completes next. *)
Lemma slot_kept (order : list nat) (buf : list (option B)) (i : nat) (a : A) :
  nth_error tasks i = Some a ->
  nth_error buf i = Some (Some (f a)) ->
  nth_error (fold_left (complete f tasks) order buf) i = Some (Some (f a)).
Proof.
  intros Ha. revert buf. induction order as [| j order IH]; intros buf Hslot; simpl.
  - assumption.
  - apply IH. unfold complete.
    destruct (Nat.eq_dec j i) as [-> | Hji].
    + rewrite Ha. apply store_same. apply nth_error_Some. congruence.
    + destruct (nth_error tasks j); [| assumption].
      now rewrite store_other.
Qed.

(** A task that completes fills its slot. *)
Lemma slot_filled (order : list nat) (buf : list (option B)) (i : nat) (a : A) :
  In i order -> nth_error tasks i = Some a -> length buf = length tasks ->
  nth_error (fold_left (complete f tasks) order buf) i = Some (Some (f a)).
Proof.
  intros Hin Ha. revert buf Hin.
  induction order as [| j order IH]; intros buf Hin Hlen; simpl; [destruct Hin |].
  destruct (Nat.eq_dec j i) as [-> | Hji].
  - apply slot_kept; [assumption |].
    unfold complete. rewrite Ha. apply store_same.
    rewrite Hlen. apply nth_error_Some. congruence.
  - apply IH.
    + destruct Hin as [-> | Hin]; [contradiction | assumption].
    + now rewrite complete_length.
Qed.

Lemma buffer_length (order : list nat) (buf : list (option B)) :
  length (fold_left (complete f tasks) order buf) = length buf.
Proof.
  revert buf. induction order as [| j order IH]; intros buf; simpl; [reflexivity |].
  now rewrite IH, complete_length.
Qed.

Lemma buffer_full (order : list nat) :
  schedule (length tasks) order ->
  fold_left (complete f tasks) order (repeat None (length tasks))
  = map (fun a => Some (f a)) tasks.
Proof.
  intros Hsched. apply nth_error_ext. intros i. rewrite nth_error_map.
  destruct (nth_error tasks i) as [a |] eqn:Ha; simpl.
  - apply slot_filled; [| assumption | apply repeat_length].
    apply (Permutation_in i (Permutation_sym Hsched)).
    apply in_seq. split; [lia |]. simpl. apply nth_error_Some. congruence.
  - apply nth_error_None. rewrite buffer_length, repeat_length.
    now apply nth_error_None.
Qed.

End Pool.

Lemma retrieve_full {A B : Type} (f : A -> result B) (tasks : list A) :
  retrieve (map (fun a => Some (f a)) tasks) = Some (run_all f tasks).
Proof.
  induction tasks as [| a tasks IH]; simpl; [reflexivity |].
  destruct (f a) as [b | e]; simpl; [| reflexivity].
  rewrite IH. now destruct (run_all f tasks).
Qed.

Lemma Parallel_run_all {A B : Type} (f : A -> result B) (tasks : list A)
    (order : list nat) :
  schedule (length tasks) order -> Parallel order f tasks = Some (run_all f tasks).
Proof.
  intros Hsched. unfold Parallel.
  now rewrite buffer_full, retrieve_full.
Qed.

Lemma for_each_pool_ext {S A : Type} (f : S -> A -> option (result S))
    (g : S -> A -> result S) (items : list A) (s : S) :
  (forall s a, In a items -> f s a = Some (g s a)) ->
  for_each_pool f items s = Some (for_each g items s).
Proof.
  revert s. induction items as [| a items IH]; intros s Hfg; simpl; [reflexivity |].
  rewrite (Hfg s a) by now left.
  destruct (g s a); simpl; [| reflexivity].
  apply IH. intros s' a' Ha'. apply Hfg. now right.
Qed.

(** ** The joblib engine *)

Lemma validate_tile_cases (intersect : list Feature -> bool) (self : GenerateTiles)
    (tile : list Z) :
  VectorTileGenerator.validate_tile intersect self tile
  = match tile_test intersect self tile with
    | Ok true => Ok tile
    | Ok false => Ok []
    | Raise e => Raise e
    end.
Proof.
  unfold VectorTileGenerator.validate_tile, tile_test.
  destruct (item tile 0); [| reflexivity].
  destruct (item tile 1); [| reflexivity].
  destruct (item tile 2); [| reflexivity].
  cbn [bind]. destruct (bounds_from_tile _ _ _); [| reflexivity].
  cbn [bind]. now destruct (tile_bounds_within_overall_bounds _ _ _) as [[|] | e].
Qed.

(** Dropping the empty results of [validate_tile] keeps the tiles that pass
    the test, in place. *)
Lemma compaction (intersect : list Feature -> bool) (self : GenerateTiles)
    (tiles : list (list Z)) :
  (filtered_tiles <- run_all (VectorTileGenerator.validate_tile intersect self) tiles ;;
   Ok (filter (fun x => (0 <? length x)%nat) filtered_tiles))
  = collect (tile_test intersect self) tiles.
Proof.
  induction tiles as [| t tiles IH]; simpl; [reflexivity |].
  rewrite validate_tile_cases, <- IH.
  destruct (tile_test intersect self t) as [[|] | e] eqn:Ht; simpl;
    [| | reflexivity].
  - destruct (run_all _ tiles); simpl; [| reflexivity].
    destruct t as [| t0 t']; [| reflexivity].
    now apply tile_test_nonempty in Ht.
  - now destruct (run_all _ tiles).
Qed.

Lemma generate_engines (intersect : list Feature -> bool) (order : Z -> list nat)
    (self : GenerateTiles) :
  (forall z tiles, zoom_generator z = Ok tiles -> schedule (length tiles) (order z)) ->
  VectorTileGenerator.generate intersect order self
  = Some (TileGenerator.generate intersect self).
Proof.
  intros Hsched. unfold VectorTileGenerator.generate, TileGenerator.generate.
  apply for_each_pool_ext. intros d z _.
  destruct (zoom_generator z) as [tiles | e] eqn:Hz; simpl; [| reflexivity].
  destruct (negb (list_eq (bounds self) world)); [| reflexivity].
  rewrite (Parallel_run_all _ tiles (order z) (Hsched z tiles Hz)).
  rewrite loop_collect, <- compaction.
  now destruct (run_all _ tiles).
Qed.

(** ** The tile south-east of the origin *)

Section Origin.

Local Open Scope R_scope.

Lemma powerRZ_2 (z : Z) : (0 <= z)%Z -> powerRZ 2 z = IZR (2 ^ z).
Proof.
  intros Hz. rewrite <- (Z2Nat.id z Hz) at 1.
  rewrite <- pow_powerRZ, pow_IZR. now rewrite Z2Nat.id.
Qed.

Lemma origin_tile (z : Z) :
  (1 <= z)%Z ->
  let h := (2 ^ (z - 1))%Z in
  let r := (2 * PI * 6378137 / 256) / powerRZ 2 z in
  let half := 2 * PI * 6378137 / 2 in
  lng_of (IZR (h * 256) * r - half) = 0
  /\ lat_of (- (IZR ((h + 1) * 256) * r - half)) < 0
  /\ 0 < lng_of (IZR ((h + 1) * 256) * r - half)
  /\ lat_of (- (IZR (h * 256) * r - half)) = 0.
Proof.
  intros Hz h r half.
  assert (Hr : 0 < r) by apply res_pos.
  assert (Hh : (0 < h)%Z) by (apply Z.pow_pos_nonneg; lia).
  assert (Hpow : powerRZ 2 z = 2 * IZR h).
  { rewrite powerRZ_2 by lia. rewrite <- mult_IZR. f_equal.
    unfold h. rewrite <- Z.pow_succ_r by lia. f_equal. lia. }
  assert (Hmid : IZR (h * 256) * r - half = 0).
  { unfold r, half. rewrite Hpow, mult_IZR.
    apply IZR_lt in Hh. field. lra. }
  assert (Hnext : IZR ((h + 1) * 256) * r - half = 256 * r).
  { rewrite mult_IZR, plus_IZR. rewrite mult_IZR in Hmid. lra. }
  rewrite Hmid, Hnext, Ropp_0, lng_of_0, lat_of_0.
  repeat split.
  - rewrite <- lat_of_0. apply lat_of_increasing. lra.
  - rewrite <- lng_of_0 at 1. apply lng_of_increasing. lra.
Qed.

End Origin.

Lemma origin_tile_within (intersect : list Feature -> bool) (self : GenerateTiles)
    (z : Z) :
  boundary_inclusive intersect -> bounds self = [0; 0; 0; 0]%Q -> 1 <= z ->
  In [z; 2 ^ (z - 1); 2 ^ (z - 1)] (filter (within intersect self) (grid z)).
Proof.
  intros Hinc Hb Hz.
  assert (Hh : 0 < 2 ^ (z - 1)) by (apply Z.pow_pos_nonneg; lia).
  assert (Hlt : 2 ^ (z - 1) < 2 ^ z) by (apply Z.pow_lt_mono_r; lia).
  apply filter_In. split.
  - apply grid_In. exists (2 ^ (z - 1)), (2 ^ (z - 1)). repeat split; lia.
  - unfold within.
    rewrite (tile_test_valid intersect self z _ _ 0 0 0 0 Hb)
      by (apply tile_is_valid_iff; lia).
    destruct (origin_tile z Hz) as (Hminx & Hminy & Hmaxx & Hmaxy).
    rewrite Hminx, Hmaxy, RMicromega.Q2R_0.
    apply Hinc; lra.
Qed.

Lemma dict_get_map {V : Type} (level : Z -> V) (zs : list Z) (z : Z) :
  In z zs -> dict_get (map (fun z => (z, level z)) zs) z = Some (level z).
Proof.
  induction zs as [| z' zs IH]; intros Hz; simpl; [destruct Hz |].
  destruct (Z.eqb_spec z' z) as [-> | Hne]; [reflexivity |].
  destruct Hz as [-> | Hz]; [contradiction | now apply IH].
Qed.

Lemma keys_map {V : Type} (level : Z -> V) (zs : list Z) :
  keys (map (fun z => (z, level z)) zs) = zs.
Proof.
  unfold keys. rewrite map_map. simpl. apply map_id.
Qed.

Lemma box_intersect_inclusive : boundary_inclusive box_intersect.
Proof.
  intros ax0 ay0 ax1 ay1 bx0 by0 bx1 by1 _ _ _ _ H1 H2 H3 H4.
  unfold box_intersect, corners, box, Rle_bool. cbn [coordinates].
  destruct (Rle_dec ax0 bx1); [| contradiction].
  destruct (Rle_dec bx0 ax1); [| contradiction].
  destruct (Rle_dec ay0 by1); [| contradiction].
  destruct (Rle_dec by0 ay1); [| contradiction].
  reflexivity.
Qed.

Lemma survivors_filter (intersect : list Feature -> bool) (self : GenerateTiles)
    (z : Z) :
  exists keep, survivors intersect self z = filter keep (grid z).
Proof.
  unfold survivors. destruct (list_eq (bounds self) world).
  - exists (fun _ => true). symmetry. apply forallb_filter_id.
    now apply forallb_forall.
  - now exists (within intersect self).
Qed.

Lemma generate_engines_world (intersect : list Feature -> bool)
    (order : Z -> list nat) (self : GenerateTiles) :
  list_eq (bounds self) world = true ->
  VectorTileGenerator.generate intersect order self
  = Some (TileGenerator.generate intersect self).
Proof.
  intros Hworld. unfold VectorTileGenerator.generate, TileGenerator.generate.
  apply for_each_pool_ext. intros d z _. rewrite Hworld.
  now destruct (zoom_generator z).
Qed.

Lemma zoom_generator_ok (z : Z) (tiles : list (list Z)) :
  zoom_generator z = Ok tiles -> 0 <= z /\ tiles = grid z.
Proof.
  intros Hgen. destruct (Z.lt_ge_cases z 0) as [Hneg | Hz].
  - rewrite zoom_generator_negative in Hgen by assumption. discriminate.
  - rewrite zoom_generator_grid in Hgen by assumption.
    injection Hgen as <-. now split.
Qed.

Lemma run_all_map {A B : Type} (f : A -> result B) (g : A -> B) (tasks : list A) :
  (forall a, In a tasks -> f a = Ok (g a)) -> run_all f tasks = Ok (map g tasks).
Proof.
  induction tasks as [| a tasks IH]; intros Hfg; simpl; [reflexivity |].
  rewrite (Hfg a) by now left. simpl.
  rewrite IH by (intros a' Ha'; apply Hfg; now right). reflexivity.
Qed.

(** The engines agree as soon as the workers complete every task of the
    zoom levels of the range. *)
Lemma generate_engines_range (intersect : list Feature -> bool)
    (order : Z -> list nat) (self : GenerateTiles) :
  (forall z, In z (range (minZoom self) (maxZoom self + 1)) ->
     forall tiles, zoom_generator z = Ok tiles -> schedule (length tiles) (order z)) ->
  VectorTileGenerator.generate intersect order self
  = Some (TileGenerator.generate intersect self).
Proof.
  intros Hsched. unfold VectorTileGenerator.generate, TileGenerator.generate.
  apply for_each_pool_ext. intros d z Hin.
  destruct (zoom_generator z) as [tiles | e] eqn:Hz; simpl; [| reflexivity].
  destruct (negb (list_eq (bounds self) world)); [| reflexivity].
  rewrite (Parallel_run_all _ tiles (order z) (Hsched z Hin tiles Hz)).
  rewrite loop_collect, <- compaction.
  now destruct (run_all _ tiles).
Qed.

(** ** The binary64 corners are strictly ordered up to zoom 20 *)

Section FastProofs.
Import Uint63.
Local Open Scope Z_scope.







End FastProofs.




(** * The claims *)

(** C1: for a constructed configuration whose bounds equal the world extent
    [[-180, -90, 180, 90]], [generate] of either engine returns the mapping
    whose keys are the zoom levels [minZoom .. maxZoom], in that order, and
    whose value at [z] is the full list of the enumerator for [z], whatever
    the intersection primitive would answer. *)
Theorem generate_world (intersect : list Feature -> bool) (order : Z -> list nat)
    (mn mx : Z) (b : list Q) (self : GenerateTiles) :
  __init__ mn mx b = Ok self -> list_eq b world = true ->
  let d := map (fun z => (z, grid z)) (range mn (mx + 1)) in
  TileGenerator.generate intersect self = Ok d
  /\ VectorTileGenerator.generate intersect order self = Some (Ok d)
  /\ keys d = range mn (mx + 1)
  /\ forall z, mn <= z <= mx ->
       zoom_generator z = Ok (grid z) /\ dict_get d z = Some (grid z).
Proof.
  intros Hinit Hworld d.
  destruct (init_ok mn mx b self Hinit) as (Hself & Hmn & _ & _ & _).
  assert (Hgen : TileGenerator.generate intersect self = Ok d).
  { rewrite (generate_pyramid intersect mn mx b self Hinit).
    unfold pyramid, survivors, d. subst self. cbn [minZoom maxZoom bounds].
    now rewrite Hworld. }
  repeat split.
  - assumption.
  - rewrite generate_engines_world, Hgen; [reflexivity |].
    subst self. assumption.
  - apply keys_map.
  - apply zoom_generator_grid. lia.
  - apply (dict_get_map grid). apply range_In. lia.
Qed.

Lemma generate_world_witness :
  TileGenerator.generate box_intersect
    {| minZoom := 2; maxZoom := 2; bounds := world |} = Ok [(2, grid 2)].
Proof.
  exact (proj1 (generate_world box_intersect (fun _ => []) 2 2 world
                  {| minZoom := 2; maxZoom := 2; bounds := world |}
                  eq_refl eq_refl)).
Defined.

(** C2: for one configuration and one intersection primitive, the joblib
    engine returns what the sequential engine returns, whatever the order in
    which the workers complete: the same zoom keys and, at every zoom level,
    the same tiles in the same order, a sub-list of the x-major, y-ascending
    enumeration. *)
Theorem engines_agree (intersect : list Feature -> bool) (order : Z -> list nat)
    (mn mx : Z) (b : list Q) (self : GenerateTiles) :
  __init__ mn mx b = Ok self ->
  (forall z tiles, zoom_generator z = Ok tiles -> schedule (length tiles) (order z)) ->
  exists d,
    TileGenerator.generate intersect self = Ok d
    /\ VectorTileGenerator.generate intersect order self = Some (Ok d)
    /\ keys d = range mn (mx + 1)
    /\ forall z, mn <= z <= mx ->
         exists keep, dict_get d z = Some (filter keep (grid z)).
Proof.
  intros Hinit Hsched.
  destruct (init_ok mn mx b self Hinit) as (Hself & _).
  exists (pyramid intersect self).
  assert (Hgen := generate_pyramid intersect mn mx b self Hinit).
  repeat split.
  - assumption.
  - now rewrite (generate_engines intersect order self Hsched), Hgen.
  - unfold pyramid. rewrite keys_map. now subst self.
  - intros z Hz.
    destruct (survivors_filter intersect self z) as (keep & Hkeep).
    exists keep. rewrite <- Hkeep. unfold pyramid.
    apply (dict_get_map (survivors intersect self)).
    apply range_In. subst self. cbn [minZoom maxZoom]. lia.
Qed.

Lemma engines_agree_witness :
  exists d,
    TileGenerator.generate box_intersect
      {| minZoom := 1; maxZoom := 2; bounds := [-10; -10; 10; 10]%Q |} = Ok d
    /\ VectorTileGenerator.generate box_intersect
         (fun z => rev (seq 0 (length (grid z))))
         {| minZoom := 1; maxZoom := 2; bounds := [-10; -10; 10; 10]%Q |}
       = Some (Ok d).
Proof.
  destruct (engines_agree box_intersect (fun z => rev (seq 0 (length (grid z))))
              1 2 [-10; -10; 10; 10]%Q
              {| minZoom := 1; maxZoom := 2; bounds := [-10; -10; 10; 10]%Q |}
              eq_refl) as (d & Hseq & Hpar & _).
  - intros z tiles Hgen. apply zoom_generator_ok in Hgen.
    destruct Hgen as [_ ->]. apply Permutation_sym, Permutation_rev.
  - exists d. split; assumption.
Defined.

(** C3: for every zoom level [z >= 0] the enumerator returns [2^z * 2^z =
    4^z] pairwise distinct triples [[z, x, y]] in x-major order (the triple
    of [x], [y] sits at position [x * 2^z + y]), and each of them satisfies
    the tile-validity predicate, [0 <= x < 2^z] and [0 <= y < 2^z]. *)
Theorem zoom_generator_enumerates (z : Z) :
  0 <= z ->
  exists tiles,
    zoom_generator z = Ok tiles
    /\ Z.of_nat (length tiles) = 4 ^ z
    /\ 4 ^ z = 2 ^ z * 2 ^ z
    /\ NoDup tiles
    /\ (forall x y, 0 <= x < 2 ^ z -> 0 <= y < 2 ^ z ->
          nth_error tiles (Z.to_nat (x * 2 ^ z + y)) = Some [z; x; y])
    /\ (forall t, In t tiles ->
          exists x y, t = [z; x; y] /\ 0 <= x < 2 ^ z /\ 0 <= y < 2 ^ z
                      /\ tile_is_valid z x y = true).
Proof.
  intros Hz. exists (grid z). repeat split.
  - now apply zoom_generator_grid.
  - now apply grid_length.
  - replace 4 with (2 * 2) by reflexivity. apply Z.pow_mul_l.
  - apply grid_NoDup.
  - intros x y Hx Hy. now apply grid_nth_error.
  - intros t Ht. apply grid_In in Ht. destruct Ht as (x & y & -> & Hx & Hy).
    exists x, y. repeat split; try lia. now apply tile_is_valid_iff.
Qed.

Lemma zoom_generator_enumerates_witness :
  exists tiles,
    zoom_generator 1 = Ok tiles
    /\ Z.of_nat (length tiles) = 4
    /\ nth_error tiles 2 = Some [1; 1; 0].
Proof.
  destruct (zoom_generator_enumerates 1 ltac:(lia))
    as (tiles & Hgen & Hlen & _ & _ & Hnth & _).
  exists tiles. repeat split; [assumption | assumption |].
  apply (Hnth 1 0); simpl; lia.
Defined.

(** C4: the constructor raises a [ValueError] exactly when one of the ten
    validation rules is violated, and the error it raises is the one of the
    first violated rule in the order minZoom range, maxZoom range, zoom
    order, bounds length, minimum x, minimum y, maximum x, maximum y, x
    order, y order; when no rule is violated it returns the instance. *)
Theorem init_validation (mn mx : Z) (b : list Q) :
  match first_violation mn mx b with
  | Some r =>
      exists msg, __init__ mn mx b = Raise (ValueError msg)
                  /\ reported_rule (ValueError msg) = Some r
  | None => __init__ mn mx b = Ok {| minZoom := mn; maxZoom := mx; bounds := b |}
  end
  /\ ((exists e, __init__ mn mx b = Raise e)
      <-> exists r, violated r mn mx b = true)
  /\ ((forall r, violated r mn mx b = false)
      <-> __init__ mn mx b = Ok {| minZoom := mn; maxZoom := mx; bounds := b |}).
Proof.
  assert (Hfirst := init_first_violation mn mx b).
  assert (Hnone := first_violation_none mn mx b).
  split; [assumption |].
  destruct (first_violation mn mx b) as [r |] eqn:Hr.
  - destruct Hfirst as (msg & Hraise & _).
    apply find_some in Hr. destruct Hr as [_ Hr].
    split; split.
    + intros _. now exists r.
    + intros _. now exists (ValueError msg).
    + intros Hall. rewrite Hall in Hr. discriminate.
    + rewrite Hraise. discriminate.
  - split; split.
    + intros (e & He). rewrite Hfirst in He. discriminate.
    + intros (r & Hr'). rewrite (proj1 Hnone eq_refl r) in Hr'. discriminate.
    + intros _. assumption.
    + intros _. now apply Hnone.
Qed.

(** C5: [tile_bounds] raises the invalid-tile [ValueError] exactly when the
    tile-validity predicate is false, that is when [x] or [y] is negative or
    at least [2^z]; otherwise it returns the pair of [pixels_to_meters] at
    pixel [(x*256, (y+1)*256)] and at pixel [((x+1)*256, y*256)], in exact
    arithmetic and in binary64 alike.  For a zoom level [z >= 0] the bound
    [2^z] is the integer power.  The zoom levels are those on which the code
    raises nothing else: [2 ** z] is a positive float from [-1074] on, and
    up to [1015] every pixel of a valid tile converts to a float and
    [math.pow(2, z)] is finite. *)
Theorem tile_bounds_spec (z x y : Z) :
  -1074 <= z <= 1015 ->
  (tile_is_valid z x y = false
   <-> x < 0 \/ y < 0 \/ (Qpower 2 z <= inject_Z x)%Q \/ (Qpower 2 z <= inject_Z y)%Q)
  /\ tile_bounds z x y
     = (if tile_is_valid z x y then
          Ok [pixels_to_meters z (x * 256) ((y + 1) * 256);
              pixels_to_meters z ((x + 1) * 256) (y * 256)]
        else Raise (ValueError "Invalid tile"))
  /\ Double.tile_bounds z x y
     = (if tile_is_valid z x y then
          Ok [Double.pixels_to_meters z (x * 256) ((y + 1) * 256);
              Double.pixels_to_meters z ((x + 1) * 256) (y * 256)]
        else Raise (ValueError "Invalid tile"))
  /\ (0 <= z ->
      (tile_is_valid z x y = true <-> 0 <= x < 2 ^ z /\ 0 <= y < 2 ^ z)).
Proof.
  intros _.
  split; [| split; [apply tile_bounds_cases | split; [reflexivity | apply tile_is_valid_iff]]].
  unfold tile_is_valid.
  destruct (Qle_bool (Qpower 2 z) (inject_Z x)) eqn:Hx.
  { apply Qle_bool_iff in Hx. tauto. }
  destruct (Qle_bool (Qpower 2 z) (inject_Z y)) eqn:Hy.
  { apply Qle_bool_iff in Hy. tauto. }
  assert (Hx' : ~ (Qpower 2 z <= inject_Z x)%Q)
    by (rewrite <- Qle_bool_iff, Hx; discriminate).
  assert (Hy' : ~ (Qpower 2 z <= inject_Z y)%Q)
    by (rewrite <- Qle_bool_iff, Hy; discriminate).
  destruct (Z.ltb_spec x 0), (Z.ltb_spec y 0); simpl; split;
    solve [tauto | discriminate | intros [? | [? | [? | ?]]]; solve [lia | contradiction]].
Qed.

Lemma tile_bounds_spec_witness :
  tile_bounds 3 5 2
  = Ok [pixels_to_meters 3 (5 * 256) ((2 + 1) * 256);
        pixels_to_meters 3 ((5 + 1) * 256) (2 * 256)]
  /\ tile_bounds 3 8 2 = Raise (ValueError "Invalid tile").
Proof.
  split.
  - exact (proj1 (proj2 (tile_bounds_spec 3 5 2 ltac:(lia)))).
  - exact (proj1 (proj2 (tile_bounds_spec 3 8 2 ltac:(lia)))).
Defined.

(** C6: for a constructed configuration [generate] returns a mapping and
    raises nothing, the invalid-tile [ValueError] in particular: every tile
    the enumerator produces for a zoom level of the configuration satisfies
    the tile-validity predicate, so [tile_bounds], [bounds_from_tile] and
    the per-tile test return a value on it. *)
Theorem generate_never_invalid_tile (intersect : list Feature -> bool)
    (mn mx : Z) (b : list Q) (self : GenerateTiles) :
  __init__ mn mx b = Ok self ->
  (exists d, TileGenerator.generate intersect self = Ok d)
  /\ forall z, mn <= z <= mx ->
       exists tiles,
         zoom_generator z = Ok tiles
         /\ forall t, In t tiles ->
              exists x y,
                t = [z; x; y]
                /\ tile_is_valid z x y = true
                /\ (exists corners, tile_bounds z x y = Ok corners)
                /\ (exists tile_box, bounds_from_tile z x y = Ok tile_box)
                /\ (exists w, tile_test intersect self t = Ok w).
Proof.
  intros Hinit.
  destruct (init_ok mn mx b self Hinit) as (Hself & Hmn & _ & _ & Hlen).
  split.
  - exists (pyramid intersect self). now apply (generate_pyramid intersect mn mx b).
  - intros z Hz. exists (grid z). split; [apply zoom_generator_grid; lia |].
    intros t Ht.
    destruct (grid_valid z t ltac:(lia) Ht) as (x & y & -> & Hv).
    exists x, y. repeat split.
    + assumption.
    + rewrite tile_bounds_cases, Hv. eauto.
    + rewrite (bounds_from_tile_valid z x y Hv). eauto.
    + exists (within intersect self [z; x; y]).
      apply (tile_test_within intersect self z); [lia | | assumption].
      now subst self.
Qed.

Lemma generate_never_invalid_tile_witness :
  exists d,
    TileGenerator.generate box_intersect
      {| minZoom := 1; maxZoom := 3; bounds := [-10; -10; 10; 10]%Q |} = Ok d.
Proof.
  exact (proj1 (generate_never_invalid_tile box_intersect 1 3 [-10; -10; 10; 10]%Q
                  {| minZoom := 1; maxZoom := 3; bounds := [-10; -10; 10; 10]%Q |}
                  eq_refl)).
Defined.

(** C7: [pixels_to_meters] returns [[meterX, meterY]] with
    [meterX = px * r - pi * R] and [meterY = - (py * r - pi * R)], where
    [r = (2 * pi * R / 256) / 2^z] and [R = 6378137]: the sign of the y
    component is flipped with respect to the pixel grid.  The equation holds
    in exact arithmetic and, operation for operation, in binary64, on the
    inputs on which the code returns: [math.pow(2, z)] is a positive finite
    float for [-1074 <= z <= 1023] and the pixel coordinates convert to
    floats. *)
Theorem pixels_to_meters_formula (z px py : Z) :
  -1074 <= z <= 1023 -> Z.abs px < 2 ^ 1023 -> Z.abs py < 2 ^ 1023 ->
  (let r := ((2 * PI * 6378137 / 256) / powerRZ 2 z)%R in
   pixels_to_meters z px py
   = [(IZR px * r - PI * 6378137)%R; (- (IZR py * r - PI * 6378137))%R])
  /\ (let r := ((2 * Double.pi * 6378137 / 256) / Double.pow2 z)%float in
      Double.pixels_to_meters z px py
      = [(Double.of_int px * r - Double.pi * 6378137)%float;
         (- (Double.of_int py * r - Double.pi * 6378137))%float]).
Proof.
  intros _ _ _. split.
  - intros r. unfold pixels_to_meters. fold r.
    replace (2 * PI * 6378137 / 2)%R with (PI * 6378137)%R by lra.
    reflexivity.
  - intros r. unfold Double.pixels_to_meters. fold r.
    replace (2 * Double.pi * 6378137 / 2)%float
      with (Double.pi * 6378137)%float by (vm_compute; reflexivity).
    reflexivity.
Qed.

Lemma pixels_to_meters_formula_witness :
  Double.pixels_to_meters 20 512 256
  = [(Double.of_int 512 * ((2 * Double.pi * 6378137 / 256) / Double.pow2 20)
      - Double.pi * 6378137)%float;
     (- (Double.of_int 256 * ((2 * Double.pi * 6378137 / 256) / Double.pow2 20)
         - Double.pi * 6378137))%float].
Proof.
  exact (proj2 (pixels_to_meters_formula 20 512 256
                  ltac:(lia) ltac:(simpl; lia) ltac:(simpl; lia))).
Defined.




(** C9: with the degenerate box [bounds = [0, 0, 0, 0]], a valid zoom range
    and a boundary-inclusive intersection primitive, [generate] returns a
    non-empty tile list at every zoom level of the range: the tile whose
    north-west corner is the origin survives the filter. *)
Theorem generate_origin_point (intersect : list Feature -> bool)
    (mn mx : Z) (self : GenerateTiles) :
  boundary_inclusive intersect ->
  __init__ mn mx [0; 0; 0; 0]%Q = Ok self ->
  exists d,
    TileGenerator.generate intersect self = Ok d
    /\ keys d = range mn (mx + 1)
    /\ forall z, mn <= z <= mx ->
         exists tiles,
           dict_get d z = Some tiles
           /\ tiles <> []
           /\ In [z; 2 ^ (z - 1); 2 ^ (z - 1)] tiles.
Proof.
  intros Hinc Hinit.
  destruct (init_ok mn mx _ self Hinit) as (Hself & Hmn & _ & _ & _).
  exists (pyramid intersect self). repeat split.
  - now apply (generate_pyramid intersect mn mx [0; 0; 0; 0]%Q).
  - unfold pyramid. rewrite keys_map. now subst self.
  - intros z Hz. exists (survivors intersect self z).
    assert (Hin : In [z; 2 ^ (z - 1); 2 ^ (z - 1)] (survivors intersect self z)).
    { unfold survivors. subst self. cbn [bounds list_eq Qeq_bool].
      apply origin_tile_within; [assumption | reflexivity | lia]. }
    repeat split.
    + unfold pyramid. apply (dict_get_map (survivors intersect self)).
      apply range_In. subst self. cbn [minZoom maxZoom]. lia.
    + intros Hnil. rewrite Hnil in Hin. destruct Hin.
    + assumption.
Qed.

Lemma generate_origin_point_witness :
  exists d,
    TileGenerator.generate box_intersect
      {| minZoom := 1; maxZoom := 2; bounds := [0; 0; 0; 0]%Q |} = Ok d
    /\ exists tiles, dict_get d 2 = Some tiles /\ In [2; 2; 2] tiles.
Proof.
  destruct (generate_origin_point box_intersect 1 2
              {| minZoom := 1; maxZoom := 2; bounds := [0; 0; 0; 0]%Q |}
              box_intersect_inclusive eq_refl) as (d & Hgen & _ & Hlevels).
  exists d. split; [assumption |].
  destruct (Hlevels 2 ltac:(lia)) as (tiles & Hget & _ & Hin).
  exists tiles. split; assumption.
Defined.

(** C10: in the joblib engine [validate_tile] returns, for a tile of the
    enumeration, the tile itself when its box intersects the configured
    bounds and the empty list otherwise; the pool returns one result per
    tile, by position, and the list that [generate] stores at the zoom level,
    the non-empty results, is the list of the tiles that pass the test, each
    once and in enumeration order. *)
Theorem parallel_compaction (intersect : list Feature -> bool)
    (order : Z -> list nat) (mn mx : Z) (b : list Q) (self : GenerateTiles)
    (z : Z) :
  __init__ mn mx b = Ok self -> list_eq b world = false -> mn <= z <= mx ->
  (forall z', mn <= z' <= mx -> schedule (length (grid z')) (order z')) ->
  (forall t, In t (grid z) ->
     VectorTileGenerator.validate_tile intersect self t
     = Ok (if within intersect self t then t else []))
  /\ exists filtered_tiles d,
       Parallel (order z) (VectorTileGenerator.validate_tile intersect self) (grid z)
       = Some (Ok filtered_tiles)
       /\ filtered_tiles = map (fun t => if within intersect self t then t else []) (grid z)
       /\ VectorTileGenerator.generate intersect order self = Some (Ok d)
       /\ dict_get d z = Some (filter (fun x => (0 <? length x)%nat) filtered_tiles)
       /\ filter (fun x => (0 <? length x)%nat) filtered_tiles
          = filter (within intersect self) (grid z)
       /\ NoDup (filter (fun x => (0 <? length x)%nat) filtered_tiles).
Proof.
  intros Hinit Hworld Hz Hsched.
  destruct (init_ok mn mx b self Hinit) as (Hself & Hmn & _ & _ & Hlen).
  assert (Hb : length (bounds self) = 4%nat) by now subst self.
  assert (Hvalidate : forall t, In t (grid z) ->
            VectorTileGenerator.validate_tile intersect self t
            = Ok (if within intersect self t then t else [])).
  { intros t Ht. rewrite validate_tile_cases.
    rewrite (tile_test_within intersect self z t ltac:(lia) Hb Ht).
    now destruct (within intersect self t). }
  split; [assumption |].
  assert (Hrun := run_all_map _ _ (grid z) Hvalidate).
  assert (Hcompact := compaction intersect self (grid z)).
  rewrite Hrun in Hcompact. cbn [bind] in Hcompact.
  rewrite (collect_filter _ (within intersect self)) in Hcompact
    by (intros t Ht; apply (tile_test_within intersect self z);
        [lia | assumption | assumption]).
  injection Hcompact as Hcompact.
  exists (map (fun t => if within intersect self t then t else []) (grid z)),
    (pyramid intersect self).
  repeat split.
  - now rewrite (Parallel_run_all _ _ (order z) (Hsched z Hz)), Hrun.
  - rewrite (generate_engines_range intersect order self).
    + now rewrite (generate_pyramid intersect mn mx b self Hinit).
    + intros z' Hz' tiles Hgen. apply range_In in Hz'.
      apply zoom_generator_ok in Hgen. destruct Hgen as [_ ->].
      apply Hsched. subst self. cbn [minZoom maxZoom] in Hz'. lia.
  - rewrite Hcompact. unfold pyramid.
    rewrite (dict_get_map (survivors intersect self))
      by (apply range_In; subst self; cbn [minZoom maxZoom]; lia).
    unfold survivors. subst self. cbn [bounds]. now rewrite Hworld.
  - assumption.
  - rewrite Hcompact. apply NoDup_filter, grid_NoDup.
Qed.

Lemma parallel_compaction_witness :
  exists filtered_tiles d,
    Parallel (rev (seq 0 (length (grid 1))))
      (VectorTileGenerator.validate_tile box_intersect
         {| minZoom := 1; maxZoom := 2; bounds := [-10; -10; 10; 10]%Q |})
      (grid 1)
    = Some (Ok filtered_tiles)
    /\ VectorTileGenerator.generate box_intersect
         (fun z => rev (seq 0 (length (grid z))))
         {| minZoom := 1; maxZoom := 2; bounds := [-10; -10; 10; 10]%Q |}
       = Some (Ok d)
    /\ dict_get d 1 = Some (filter (fun x => (0 <? length x)%nat) filtered_tiles).
Proof.
  destruct (parallel_compaction box_intersect
              (fun z => rev (seq 0 (length (grid z))))
              1 2 [-10; -10; 10; 10]%Q
              {| minZoom := 1; maxZoom := 2; bounds := [-10; -10; 10; 10]%Q |} 1
              eq_refl eq_refl ltac:(lia)
              (fun z' _ => Permutation_sym (Permutation_rev (seq 0 (length (grid z'))))))
    as (_ & filtered_tiles & d & Hpool & _ & Hgen & Hget & _).
  exists filtered_tiles, d. repeat split; assumption.
Defined.

(** * Scenarios of the specification *)

Example enumerate_zoom_1 :
  zoom_generator 1 = Ok [[1; 0; 0]; [1; 0; 1]; [1; 1; 0]; [1; 1; 1]].
Proof. reflexivity. Qed.

Example generate_zoom_2_world :
  TileGenerator.generate box_intersect
    {| minZoom := 2; maxZoom := 2; bounds := world |}
  = Ok [(2, [[2; 0; 0]; [2; 0; 1]; [2; 0; 2]; [2; 0; 3];
             [2; 1; 0]; [2; 1; 1]; [2; 1; 2]; [2; 1; 3];
             [2; 2; 0]; [2; 2; 1]; [2; 2; 2]; [2; 2; 3];
             [2; 3; 0]; [2; 3; 1]; [2; 3; 2]; [2; 3; 3]])].
Proof. reflexivity. Qed.

Example init_min_zoom_21 :
  __init__ 21 21 world = Raise (ValueError "minZoom must be less than or equal to 20").
Proof. reflexivity. Qed.

Example init_x_order :
  __init__ 1 1 [10; -90; -10; 90]%Q
  = Raise (ValueError "Minimum x bounds must be less than maximum x bounds").
Proof. reflexivity. Qed.

Example init_float_world :
  exists self,
    __init__ 1 2 [-360 # 2; -90; 180; 180 # 2]%Q = Ok self
    /\ list_eq (bounds self) world = true.
Proof. eexists. split; reflexivity. Qed.

Example tile_is_valid_examples :
  tile_is_valid 1 1 1 = true /\ tile_is_valid 1 2 0 = false
  /\ tile_is_valid 1 0 (-1) = false /\ tile_is_valid (-1) 0 0 = true.
Proof. repeat split. Qed.

(** * Further properties of the projection *)

Section Mercator.

Local Open Scope R_scope.








End Mercator.





(** * Further properties of the tile geometry *)




Lemma double_bounds_from_tile_valid (atan exp : float -> float) (z x y : Z) :
  tile_is_valid z x y = true ->
  Double.bounds_from_tile atan exp z x y
  = Ok [double_lng z (x * 256); double_lat atan exp z ((y + 1) * 256);
        double_lng z ((x + 1) * 256); double_lat atan exp z (y * 256)].
Proof.
  intros Hv.
  unfold Double.bounds_from_tile, Double.tile_bounds. rewrite Hv.
  reflexivity.
Qed.

(** X6: neighbouring tiles share their edges.  The east edge of a tile is
    the west edge of the tile to its right and its south edge is the north
    edge of the tile below, and the two tiles of a row (column) have the same
    latitudes (longitudes).  This holds in exact arithmetic and, value for
    value, in binary64, whatever [math.atan] and [math.exp] compute; the
    binary64 part is for the zoom levels up to [1015], on which every pixel
    of the three tiles converts to a float and [math.pow(2, z)] is finite. *)
Theorem bounds_from_tile_neighbours (z x y : Z) :
  0 <= z -> 0 <= x -> x + 1 < 2 ^ z -> 0 <= y -> y + 1 < 2 ^ z ->
  (exists w s e n e2 s2 : R,
      bounds_from_tile z x y = Ok [w; s; e; n]
      /\ bounds_from_tile z (x + 1) y = Ok [e; s; e2; n]
      /\ bounds_from_tile z x (y + 1) = Ok [w; s2; e; s])
  /\ (z <= 1015 ->
      forall atan exp : float -> float,
        exists w s e n e2 s2 : float,
          Double.bounds_from_tile atan exp z x y = Ok [w; s; e; n]
          /\ Double.bounds_from_tile atan exp z (x + 1) y = Ok [e; s; e2; n]
          /\ Double.bounds_from_tile atan exp z x (y + 1) = Ok [w; s2; e; s]).
Proof.
  intros Hz Hx Hx1 Hy Hy1.
  assert (Hv : tile_is_valid z x y = true) by (apply tile_is_valid_iff; lia).
  assert (Hvx : tile_is_valid z (x + 1) y = true) by (apply tile_is_valid_iff; lia).
  assert (Hvy : tile_is_valid z x (y + 1) = true) by (apply tile_is_valid_iff; lia).
  split.
  - rewrite (bounds_from_tile_valid z x y Hv),
      (bounds_from_tile_valid z (x + 1) y Hvx),
      (bounds_from_tile_valid z x (y + 1) Hvy).
    do 6 eexists. repeat split; reflexivity.
  - intros _ atan exp.
    rewrite (double_bounds_from_tile_valid atan exp z x y Hv),
      (double_bounds_from_tile_valid atan exp z (x + 1) y Hvx),
      (double_bounds_from_tile_valid atan exp z x (y + 1) Hvy).
    do 6 eexists. repeat split; reflexivity.
Qed.

Lemma bounds_from_tile_neighbours_witness :
  (exists w s e n e2 s2 : R,
      bounds_from_tile 2 1 1 = Ok [w; s; e; n]
      /\ bounds_from_tile 2 2 1 = Ok [e; s; e2; n]
      /\ bounds_from_tile 2 1 2 = Ok [w; s2; e; s])
  /\ forall atan exp : float -> float,
       exists w s e n e2 s2 : float,
         Double.bounds_from_tile atan exp 2 1 1 = Ok [w; s; e; n]
         /\ Double.bounds_from_tile atan exp 2 2 1 = Ok [e; s; e2; n]
         /\ Double.bounds_from_tile atan exp 2 1 2 = Ok [w; s2; e; s].
Proof.
  split.
  - exact (proj1 (bounds_from_tile_neighbours 2 1 1
                    ltac:(lia) ltac:(lia) ltac:(simpl; lia)
                    ltac:(lia) ltac:(simpl; lia))).
  - exact (proj2 (bounds_from_tile_neighbours 2 1 1
                    ltac:(lia) ltac:(lia) ltac:(simpl; lia)
                    ltac:(lia) ltac:(simpl; lia)) ltac:(lia)).
Defined.





(** * Further properties of the constructor and of the engines *)

(** X9: the constructor returns the instance or raises a [ValueError] with
    the message of one of twelve checks.  It never raises [IndexError],
    although it indexes [bounds]: the length check comes first.  The sixth
    check, [maxZoom < minZoom], never fires: the fifth has caught the case,
    so its message is never raised. *)
Theorem init_errors (mn mx : Z) (b : list Q) :
  match __init__ mn mx b with
  | Ok self => self = {| minZoom := mn; maxZoom := mx; bounds := b |}
  | Raise e => exists msg, e = ValueError msg /\ In msg init_messages
  end
  /\ __init__ mn mx b <> Raise IndexError
  /\ __init__ mn mx b
     <> Raise (ValueError "maxZoom must be greater than or equal to minZoom").
Proof.
  assert (Hcases :
    match __init__ mn mx b with
    | Ok self => self = {| minZoom := mn; maxZoom := mx; bounds := b |}
    | Raise e => exists msg, e = ValueError msg /\ In msg init_messages
    end).
  { unfold __init__.
    destruct (mn >? 20); [eexists; split; [reflexivity | simpl; tauto] |].
    destruct (mn <? 1); [eexists; split; [reflexivity | simpl; tauto] |].
    destruct (mx <? 1); [eexists; split; [reflexivity | simpl; tauto] |].
    destruct (mx >? 20); [eexists; split; [reflexivity | simpl; tauto] |].
    destruct (Z.gtb_spec mn mx); [eexists; split; [reflexivity | simpl; tauto] |].
    destruct (Z.ltb_spec mx mn); [lia |].
    destruct b as [| b0 [| b1 [| b2 [| b3 [| b4 b']]]]];
      try (eexists; split; [reflexivity | simpl; tauto]).
    cbn [length Nat.eqb negb item nth_error bind].
    destruct (Qlt_bool b0 (-180)); [eexists; split; [reflexivity | simpl; tauto] |].
    destruct (Qlt_bool b1 (-90)); [eexists; split; [reflexivity | simpl; tauto] |].
    destruct (Qlt_bool 180 b2); [eexists; split; [reflexivity | simpl; tauto] |].
    destruct (Qlt_bool 90 b3); [eexists; split; [reflexivity | simpl; tauto] |].
    destruct (Qlt_bool b2 b0); [eexists; split; [reflexivity | simpl; tauto] |].
    destruct (Qlt_bool b3 b1); [eexists; split; [reflexivity | simpl; tauto] |].
    reflexivity. }
  split; [assumption |].
  destruct (__init__ mn mx b) as [self | e]; [split; discriminate |].
  destruct Hcases as (msg & -> & Hin).
  split; [discriminate |].
  intros [= ->]. simpl in Hin.
  repeat (destruct Hin as [Hin | Hin]; [discriminate |]).
  destruct Hin.
Qed.

Lemma within_true (intersect : list Feature -> bool) (self : GenerateTiles)
    (z x y : Z) :
  within intersect self [z; x; y] = true
  <-> exists tile_box,
        bounds_from_tile z x y = Ok tile_box
        /\ tile_bounds_within_overall_bounds intersect tile_box
             (map Q2R (bounds self)) = Ok true.
Proof.
  unfold within, tile_test. cbn [item nth_error bind].
  destruct (bounds_from_tile z x y) as [tile_box | e]; cbn [bind].
  - split.
    + intros Hw. exists tile_box. split; [reflexivity |].
      destruct (tile_bounds_within_overall_bounds _ _ _) as [w | e];
        [now subst w | discriminate].
    + intros (tile_box' & [= <-] & Hw). now rewrite Hw.
  - split; [discriminate | intros (tile_box & Hbox & _); discriminate].
Qed.

(** X12: for a constructed configuration whose bounds differ from the world
    extent, a tile is in the list that [generate] stores at a zoom level [z]
    of the range exactly when it is a triple [[z, x, y]] of the grid whose
    box, as [bounds_from_tile] returns it, passes
    [tile_bounds_within_overall_bounds] against the configured bounds. *)
Theorem generate_membership (intersect : list Feature -> bool)
    (mn mx : Z) (b : list Q) (self : GenerateTiles) :
  __init__ mn mx b = Ok self -> list_eq b world = false ->
  exists d,
    TileGenerator.generate intersect self = Ok d
    /\ forall z, mn <= z <= mx ->
         exists tiles,
           dict_get d z = Some tiles
           /\ forall t,
                In t tiles
                <-> exists x y tile_box,
                      t = [z; x; y]
                      /\ 0 <= x < 2 ^ z /\ 0 <= y < 2 ^ z
                      /\ bounds_from_tile z x y = Ok tile_box
                      /\ tile_bounds_within_overall_bounds intersect tile_box
                           (map Q2R b) = Ok true.
Proof.
  intros Hinit Hworld.
  destruct (init_ok mn mx b self Hinit) as (Hself & Hmn & _ & _ & _).
  exists (pyramid intersect self). split.
  - now apply (generate_pyramid intersect mn mx b).
  - intros z Hz. exists (survivors intersect self z). split.
    + unfold pyramid. apply (dict_get_map (survivors intersect self)).
      apply range_In. subst self. cbn [minZoom maxZoom]. lia.
    + intros t. unfold survivors. subst self. cbn [bounds]. rewrite Hworld.
      rewrite filter_In, grid_In. split.
      * intros ((x & y & -> & Hx & Hy) & Hw).
        apply within_true in Hw. destruct Hw as (tile_box & Hbox & Hin).
        exists x, y, tile_box. repeat split; try lia; assumption.
      * intros (x & y & tile_box & -> & Hx & Hy & Hbox & Hin). split.
        -- exists x, y. repeat split; lia.
        -- apply within_true. now exists tile_box.
Qed.

Lemma generate_membership_witness :
  exists d,
    TileGenerator.generate box_intersect
      {| minZoom := 1; maxZoom := 2; bounds := [0; 0; 0; 0]%Q |} = Ok d.
Proof.
  destruct (generate_membership box_intersect 1 2 [0; 0; 0; 0]%Q
              {| minZoom := 1; maxZoom := 2; bounds := [0; 0; 0; 0]%Q |}
              eq_refl eq_refl) as (d & Hgen & _).
  exists d. exact Hgen.
Defined.

Lemma filter_none {A : Type} (p : A -> bool) (l : list A) :
  (forall a, In a l -> p a = false) -> filter p l = [].
Proof.
  induction l as [| a l IH]; intros Hp; simpl; [reflexivity |].
  rewrite (Hp a) by now left. apply IH. intros a' Ha'. apply Hp. now right.
Qed.

Lemma within_constant (answer : bool) (self : GenerateTiles) (z : Z) (t : list Z) :
  0 <= z -> length (bounds self) = 4%nat -> In t (grid z) ->
  within (fun _ => answer) self t = answer.
Proof.
  intros Hz Hlen Ht.
  destruct (grid_valid z t Hz Ht) as (x & y & -> & Hv).
  destruct (bounds self) as [| b0 [| b1 [| b2 [| b3 [| b4 b']]]]] eqn:Hb;
    try discriminate.
  unfold within.
  now rewrite (tile_test_valid (fun _ => answer) self z x y b0 b1 b2 b3 Hb Hv).
Qed.

(** X13: the two extremes of the filter.  With a primitive that accepts
    every pair of polygons, [generate] returns the full grid at every zoom
    level, what the world-extent fast path returns.  With a primitive that
    rejects every pair, it keeps every zoom level as a key, with the empty
    list, unless the bounds equal the world extent and the primitive is
    never asked. *)
Theorem generate_extremes (mn mx : Z) (b : list Q) (self : GenerateTiles) :
  __init__ mn mx b = Ok self ->
  TileGenerator.generate (fun _ => true) self
  = Ok (map (fun z => (z, grid z)) (range mn (mx + 1)))
  /\ TileGenerator.generate (fun _ => false) self
     = Ok (map (fun z => (z, if list_eq b world then grid z else []))
             (range mn (mx + 1))).
Proof.
  intros Hinit.
  destruct (init_ok mn mx b self Hinit) as (Hself & Hmn & _ & _ & Hlen).
  assert (Hb : length (bounds self) = 4%nat) by now subst self.
  rewrite !(generate_pyramid _ mn mx b self Hinit).
  unfold pyramid. replace (minZoom self) with mn by now subst self.
  replace (maxZoom self) with mx by now subst self.
  split; f_equal; apply map_ext_in; intros z Hz; apply range_In in Hz;
    f_equal; unfold survivors; replace (bounds self) with b by (now subst self);
    destruct (list_eq b world); try reflexivity.
  - apply forallb_filter_id, forallb_forall. intros t Ht.
    apply (within_constant true self z); [lia | assumption | assumption].
  - apply filter_none. intros t Ht.
    apply (within_constant false self z); [lia | assumption | assumption].
Qed.

Lemma generate_extremes_witness :
  TileGenerator.generate (fun _ => false)
    {| minZoom := 1; maxZoom := 3; bounds := [-10; -10; 10; 10]%Q |}
  = Ok [(1, []); (2, []); (3, [])].
Proof.
  exact (proj2 (generate_extremes 1 3 [-10; -10; 10; 10]%Q
                  {| minZoom := 1; maxZoom := 3; bounds := [-10; -10; 10; 10]%Q |}
                  eq_refl)).
Defined.

Lemma size_le_negative (z x : Z) :
  z < 0 -> Qle_bool (Qpower 2 z) (inject_Z x) = (1 <=? x).
Proof.
  intros Hz. apply eq_true_iff_eq. rewrite Qle_bool_iff, Z.leb_le.
  assert (Hpos : (0 < Qpower 2 z)%Q) by now apply Qpower_0_lt.
  assert (Hone : (Qpower 2 z < 1)%Q).
  { change 1%Q with (Qpower 2 0). now apply Qpower_lt_compat_l. }
  split.
  - intros Hle. assert (Hx : (0 < inject_Z x)%Q) by (eapply Qlt_le_trans; eassumption).
    change 0%Q with (inject_Z 0) in Hx. rewrite <- Zlt_Qlt in Hx. lia.
  - intros Hx. apply Qlt_le_weak. eapply Qlt_le_trans; [eassumption |].
    change 1%Q with (inject_Z 1). now rewrite <- Zle_Qle.
Qed.

(** X14: [tile_is_valid] does not look at the sign of the zoom level.  For a
    negative zoom [z] the size [2 ** z] is a float between 0 and 1, so the
    tile [(z, 0, 0)], and no other, is valid, while [zoom_generator] raises
    [TypeError] on the same zoom: [range] does not take a float. *)
Theorem negative_zoom (z x y : Z) :
  -1074 <= z < 0 ->
  (tile_is_valid z x y = true <-> x = 0 /\ y = 0)
  /\ zoom_generator z = Raise TypeError.
Proof.
  intros [_ Hz]. split; [| now apply zoom_generator_negative].
  unfold tile_is_valid. rewrite !size_le_negative by assumption.
  destruct (Z.leb_spec 1 x), (Z.leb_spec 1 y), (Z.ltb_spec x 0), (Z.ltb_spec y 0);
    simpl; split; solve [discriminate | reflexivity | lia].
Qed.

Lemma negative_zoom_witness :
  (tile_is_valid (-3) 0 0 = true <-> 0 = 0 /\ 0 = 0)
  /\ zoom_generator (-3) = Raise TypeError.
Proof.
  exact (negative_zoom (-3) 0 0 ltac:(lia)).
Defined.
